(** * Graphite web frontend: the menu bar and the panel tab strip

    A shallow embedding of two Vue single-file components of the Graphite
    frontend and of the properties the specification states about them.

    - The menu bar: the component with the [data-menu-bar-input] root
      element, the static menu table [makeEntries] and the methods
      [onClick], [blur] and [visitWebsite].  In the sources it follows
      the editor settings in [.vscode/settings.json].
    - The panel: [frontend/src/components/window/workspace/Panel.vue],
      the tab strip and its three inline handlers.

    Handlers are written in a small state / trace / exception monad:
    a handler mutates the component it belongs to, calls out to the DOM
    or to callbacks supplied by the parent, and may throw.  As in
    JavaScript a throw does not roll back what was done before it. *)

From Stdlib Require Import ZArith String List Lia.
From stdpp Require Import base list strings.
Import ListNotations.
Open Scope string_scope.
Open Scope list_scope.

Set Warnings "-register-all".

(** ** Handlers as state-passing computations *)

Module Js.

(** How a JavaScript function ends: it returns a value or throws an
    [Error] carrying a message. *)
Inductive result (A : Type) : Type :=
| Ok (a : A)
| Throw (message : string).
Arguments Ok {A} a.
Arguments Throw {A} message.

(** Calls a handler makes on objects it does not own. *)
Inductive Invocation : Type :=
| Focus (node : nat)                 (* element.focus()            *)
| WindowOpen (url target : string)   (* window.open(url, target)   *)
| StopPropagation                    (* e.stopPropagation()        *)
| ClickAction (index : nat)          (* clickAction(index)         *)
| CloseAction (index : nat).         (* closeAction(index)         *)

(** What running a computation on a component state leaves behind. *)
Record Run (S A : Type) : Type := MkRun {
  final : S;
  calls : list Invocation;
  outcome : result A
}.
Arguments MkRun {S A} final calls outcome.
Arguments final {S A} r.
Arguments calls {S A} r.
Arguments outcome {S A} r.

Definition M (S A : Type) : Type := S -> Run S A.

Definition ret {S A} (a : A) : M S A :=
  fun s => MkRun s [] (Ok a).

Definition bind {S A B} (m : M S A) (k : A -> M S B) : M S B :=
  fun s =>
    let r := m s in
    match outcome r with
    | Ok a =>
        let r' := k a (final r) in
        MkRun (final r') (calls r ++ calls r') (outcome r')
    | Throw msg => MkRun (final r) (calls r) (Throw msg)
    end.

Definition get {S} : M S S :=
  fun s => MkRun s [] (Ok s).

Definition modify {S} (f : S -> S) : M S unit :=
  fun s => MkRun (f s) [] (Ok tt).

Definition emit {S} (c : Invocation) : M S unit :=
  fun s => MkRun s [c] (Ok tt).

Definition throw {S A} (msg : string) : M S A :=
  fun s => MkRun s [] (Throw msg).

(** The outcome of a call into foreign code, spliced into the caller. *)
Definition lift {S A} (r : result A) : M S A :=
  fun s => MkRun s [] r.

End Js.

Import Js.

Notation "x <- m ;; k" := (bind m (fun x => k))
  (at level 100, m at next level, k at level 200, right associativity).
Notation "m ;; k" := (bind m (fun _ => k))
  (at level 100, k at level 200, right associativity).

(** ** MenuBarInput.vue *)

Module MenuBarInput.

(** *** The editor, as far as the menu table touches it *)

(** The methods of [editor.instance] that occur in the component. *)
Inductive EditorMethod : Type :=
| request_new_document_dialog
| open_document
| close_active_document_with_confirmation
| close_all_documents_with_confirmation
| save_document
| export_document
| undo
| redo
| cut
| copy
| select_all_layers
| deselect_all_layers
| reorder_selected_layers
| toggle_node_graph_visibility
| request_about_graphite_dialog
| log_level_info
| log_level_debug
| log_level_trace
| intentional_panic
| i32_max
| i32_min
| request_coming_soon_dialog.

#[global] Instance EditorMethod_eq_dec : EqDecision EditorMethod.
Proof. solve_decision. Defined.

(** The editor is an external WebAssembly object that is not among the
    sources; it is a parameter of everything below.  The only results of
    it that the component reads are the numbers returned by [i32_max()]
    and [i32_min()]; every other method is called for its effect. *)
Record EditorInstance : Type := {
  i32_max_result : Z;
  i32_min_result : Z
}.

Record Editor : Type := { instance : EditorInstance }.

(** The bodies of the [action] arrow functions. *)
Inductive Expr : Type :=
| Undefined
| Num (z : Z)
| EditorCall (method : EditorMethod) (args : list Expr)
| WindowOpenCall (url target : string).

(** An arrow function of the table: its body and the [editor] argument
    of [makeEntries] it closes over. *)
Record Action : Type := {
  captured : Editor;
  is_async : bool;
  body : Expr
}.

Inductive Value : Type :=
| VUndefined
| VNumber (z : Z)
| VWindow.

(** A call that reached the editor or the window. *)
Inductive Effect : Type :=
| CallEditor (method : EditorMethod) (args : list Value)
| CallWindowOpen (url target : string).

(** What an editor method returns. *)
Definition method_result (ed : Editor) (m : EditorMethod) : Value :=
  match m with
  | i32_max => VNumber (i32_max_result (instance ed))
  | i32_min => VNumber (i32_min_result (instance ed))
  | _ => VUndefined
  end.

(** Evaluation of a body: arguments left to right, then the call. *)
Fixpoint eval (ed : Editor) (e : Expr) : list Effect * Value :=
  match e with
  | Undefined => ([], VUndefined)
  | Num z => ([], VNumber z)
  | EditorCall m args =>
      let rs := map (eval ed) args in
      (concat (map fst rs) ++ [CallEditor m (map snd rs)], method_result ed m)
  | WindowOpenCall url target => ([CallWindowOpen url target], VWindow)
  end.

(** Invoking an action: the effects it has, in order. *)
Definition invoke (a : Action) : list Effect :=
  fst (eval (captured a) (body a)).

(** The editor method an action calls as its body, if it calls one. *)
Definition action_method (a : Action) : option EditorMethod :=
  match body a with
  | EditorCall m _ => Some m
  | _ => None
  end.

(** Every editor method that occurs in an expression. *)
Fixpoint methods_of (e : Expr) : list EditorMethod :=
  match e with
  | EditorCall m args => m :: concat (map methods_of args)
  | _ => []
  end.

(** The editor methods an action invokes when it runs. *)
Definition invoked_methods (a : Action) : list EditorMethod :=
  methods_of (body a).

(** The editor methods that occur inside the arguments of the call. *)
Definition argument_methods (a : Action) : list EditorMethod :=
  match body a with
  | EditorCall _ args => concat (map methods_of args)
  | _ => []
  end.

(** *** Menu entries *)

(** [MenuListEntry]: every property but [ref] is static data.  [ref]
    holds a reference to the [MenuList] child component that renders the
    entry's children; the reference is the position of that child among
    the component's [MenuList] children. *)
Inductive MenuListEntry : Type := MkEntry {
  label : option string;
  icon : option string;
  shortcut : option (list string);
  shortcutRequiresLock : option bool;
  checkbox : option bool;
  checked : option bool;
  action : option Action;
  children : option (list (list MenuListEntry));
  ref : option nat
}.

Abbreviation MenuListEntries := (list MenuListEntry) (only parsing).

(** A plain item of a menu. *)
Definition item (l : string) (i : option string) (s : option (list string))
    (lock : option bool) (a : option Action)
    (c : option (list (list MenuListEntry))) : MenuListEntry :=
  MkEntry (Some l) i s lock None None a c None.

(** An item that is only a label. *)
Definition plain (l : string) : MenuListEntry :=
  item l None None None None None.

(** A top-level entry: [{ label, ref: undefined, children }]. *)
Definition menu (l : string) (c : list (list MenuListEntry)) : MenuListEntry :=
  MkEntry (Some l) None None None None None None (Some c) None.

(** [(): void => body] and [async (): Promise<void> => body]. *)
Definition arrow (ed : Editor) (b : Expr) : option Action :=
  Some {| captured := ed; is_async := false; body := b |}.
Definition async_arrow (ed : Editor) (b : Expr) : option Action :=
  Some {| captured := ed; is_async := true; body := b |}.

(** [editor.instance.m()] *)
Definition call0 (m : EditorMethod) : Expr := EditorCall m [].

Definition keys (ks : list string) : option (list string) := Some ks.

(** The static table. *)
Definition makeEntries (editor : Editor) : MenuListEntries :=
  [ menu "File"
      [ [ item "New…" (Some "File") (keys ["KeyControl"; "KeyN"]) (Some true)
            (arrow editor (call0 request_new_document_dialog)) None;
          item "Open…" None (keys ["KeyControl"; "KeyO"]) None
            (arrow editor (call0 open_document)) None;
          item "Open Recent" None (keys ["KeyControl"; "KeyShift"; "KeyO"]) None
            (arrow editor Undefined)
            (Some
               [ [ item "Reopen Last Closed" None
                     (keys ["KeyControl"; "KeyShift"; "KeyT"]) (Some true) None None;
                   plain "Clear Recently Opened" ];
                 [ plain "Some Recent File.gdd";
                   plain "Another Recent File.gdd";
                   plain "An Older File.gdd";
                   plain "Some Other Older File.gdd";
                   plain "Yet Another Older File.gdd" ] ]) ];
        [ item "Close" None (keys ["KeyControl"; "KeyW"]) (Some true)
            (async_arrow editor (call0 close_active_document_with_confirmation)) None;
          item "Close All" None (keys ["KeyControl"; "KeyAlt"; "KeyW"]) None
            (async_arrow editor (call0 close_all_documents_with_confirmation)) None ];
        [ item "Save" None (keys ["KeyControl"; "KeyS"]) None
            (async_arrow editor (call0 save_document)) None;
          item "Save As…" None (keys ["KeyControl"; "KeyShift"; "KeyS"]) None
            (async_arrow editor (call0 save_document)) None;
          item "Save All" None (keys ["KeyControl"; "KeyAlt"; "KeyS"]) None None None;
          MkEntry (Some "Auto-Save") None None None (Some true) (Some true)
            None None None ];
        [ item "Import…" None (keys ["KeyControl"; "KeyI"]) None None None;
          item "Export…" None (keys ["KeyControl"; "KeyE"]) None
            (async_arrow editor (call0 export_document)) None ];
        [ item "Quit" None (keys ["KeyControl"; "KeyQ"]) None None None ] ];
    menu "Edit"
      [ [ item "Undo" None (keys ["KeyControl"; "KeyZ"]) None
            (async_arrow editor (call0 undo)) None;
          item "Redo" None (keys ["KeyControl"; "KeyShift"; "KeyZ"]) None
            (async_arrow editor (call0 redo)) None ];
        [ item "Cut" None (keys ["KeyControl"; "KeyX"]) None
            (async_arrow editor (call0 cut)) None;
          item "Copy" (Some "Copy") (keys ["KeyControl"; "KeyC"]) None
            (async_arrow editor (call0 copy)) None ] ];
    menu "Layer"
      [ [ item "Select All" None (keys ["KeyControl"; "KeyA"]) None
            (async_arrow editor (call0 select_all_layers)) None;
          item "Deselect All" None (keys ["KeyControl"; "KeyAlt"; "KeyA"]) None
            (async_arrow editor (call0 deselect_all_layers)) None;
          item "Order" None None None
            (arrow editor Undefined)
            (Some
               [ [ item "Raise To Front" None
                     (keys ["KeyControl"; "KeyShift"; "KeyLeftBracket"]) None
                     (async_arrow editor
                        (EditorCall reorder_selected_layers [call0 i32_max])) None;
                   item "Raise" None (keys ["KeyControl"; "KeyRightBracket"]) None
                     (async_arrow editor
                        (EditorCall reorder_selected_layers [Num 1])) None;
                   item "Lower" None (keys ["KeyControl"; "KeyLeftBracket"]) None
                     (async_arrow editor
                        (EditorCall reorder_selected_layers [Num (-1)])) None;
                   item "Lower to Back" None
                     (keys ["KeyControl"; "KeyShift"; "KeyRightBracket"]) None
                     (async_arrow editor
                        (EditorCall reorder_selected_layers [call0 i32_min])) None ] ]) ] ];
    menu "Document"
      [ [ plain "Menu entries coming soon" ] ];
    menu "View"
      [ [ item "Show/Hide Node Graph (In Development)" None None None
            (async_arrow editor (call0 toggle_node_graph_visibility)) None ] ];
    menu "Help"
      [ [ item "About Graphite" None None None
            (async_arrow editor (call0 request_about_graphite_dialog)) None ];
        [ item "Report a Bug" None None None
            (arrow editor
               (WindowOpenCall "https://github.com/GraphiteEditor/Graphite/issues/new"
                  "_blank")) None;
          item "Visit on GitHub" None None None
            (arrow editor
               (WindowOpenCall "https://github.com/GraphiteEditor/Graphite" "_blank"))
            None ];
        [ item "Debug: Set Log Level" None None None
            (arrow editor Undefined)
            (Some
               [ [ item "Log Level Info" None (keys ["Key1"]) None
                     (async_arrow editor (call0 log_level_info)) None;
                   item "Log Level Debug" None (keys ["Key2"]) None
                     (async_arrow editor (call0 log_level_debug)) None;
                   item "Log Level Trace" None (keys ["Key3"]) None
                     (async_arrow editor (call0 log_level_trace)) None ] ]);
          item "Debug: Panic (DANGER)" None None None
            (async_arrow editor (call0 intentional_panic)) None ] ] ].

(** The [defaultAction] the template hands to every [MenuList]. *)
Definition defaultAction (editor : Editor) : option Action :=
  arrow editor (call0 request_coming_soon_dialog).

(** Every entry of a menu tree, parents before their children. *)
Fixpoint flatten (e : MenuListEntry) : list MenuListEntry :=
  e :: match children e with
       | Some sections => concat (map (fun sec => concat (map flatten sec)) sections)
       | None => []
       end.

Definition all_entries (es : MenuListEntries) : list MenuListEntry :=
  concat (map flatten es).

(** The [action] callbacks present in a table. *)
Definition table_actions (es : MenuListEntries) : list Action :=
  omap action (all_entries es).

(** Finding an entry by the labels on the way to it, as a user reads
    the menu: [Layer > Order > Raise]. *)
Definition has_label (l : string) (e : MenuListEntry) : bool :=
  bool_decide (label e = Some l).

Fixpoint lookup_path (path : list string) (es : list MenuListEntry)
    : option MenuListEntry :=
  match path with
  | [] => None
  | l :: rest =>
      match find (has_label l) es with
      | Some e =>
          match rest with
          | [] => Some e
          | _ => lookup_path rest (concat (default [] (children e)))
          end
      | None => None
      end
  end.

(** The effects of choosing the entry found along [path]. *)
Definition invoke_at (path : list string) (es : list MenuListEntry)
    : option (list Effect) :=
  invoke <$> (lookup_path path es ≫= action).

(** *** The component instance *)

(** Modelled from the spec: [MenuList.vue] is not among the sources.  The
    menu bar reads and writes one property of a [MenuList] child, the
    open flag [isOpen]. *)
Record MenuList : Type := { isOpen : bool }.

(** A DOM element, as far as the handlers look at it: its identity and
    the answer to [closest("[data-menu-bar-input]")] ([None] is null). *)
Record HTMLElement : Type := {
  node : nat;
  closest_menu_bar_input : option nat
}.

(** [e.target as HTMLElement] *)
Record FocusEvent : Type := { target : HTMLElement }.

(** The component: [this.$el], the injected editor, the two properties
    returned by [data()] and the [MenuList] children that [v-for] renders,
    one for each entry, in the order of the entries. *)
Record MenuBar : Type := MkMenuBar {
  el : nat;
  editor : Editor;
  entries : MenuListEntries;
  open : bool;
  menuLists : list MenuList
}.

Definition with_entries (c : MenuBar) (es : MenuListEntries) : MenuBar :=
  MkMenuBar (el c) (editor c) es (open c) (menuLists c).

Definition with_menuLists (c : MenuBar) (ms : list MenuList) : MenuBar :=
  MkMenuBar (el c) (editor c) (entries c) (open c) ms.

Definition with_ref (e : MenuListEntry) (r : option nat) : MenuListEntry :=
  MkEntry (label e) (icon e) (shortcut e) (shortcutRequiresLock e)
    (checkbox e) (checked e) (action e) (children e) r.

(** [data()] *)
Definition data (ed : Editor) : MenuListEntries * bool :=
  (makeEntries ed, false).

(** The component once created and rendered: the entries as [data()]
    returns them, no function ref called yet, and one [MenuList] child
    for each entry.  The children start closed: the initial state of the
    specification is the one with all entries closed. *)
Definition mount (root : nat) (ed : Editor) : MenuBar :=
  let d := data ed in
  MkMenuBar root ed (fst d) (snd d)
    (replicate (length (fst d)) {| isOpen := false |}).

(** [r.isOpen = b], for the child that [r] refers to. *)
Definition set_isOpen (r : nat) (b : bool) : M MenuBar unit :=
  modify (fun this =>
    with_menuLists this (alter (fun _ => {| isOpen := b |}) r (menuLists this))).

(** [(target as HTMLElement)?.focus()] *)
Definition focus (t : option HTMLElement) : M MenuBar unit :=
  match t with
  | Some elem => emit (Focus (node elem))
  | None => ret tt
  end.

Definition no_ref_message : string :=
  "The menu bar floating menu has no associated ref".

Definition onClick (menuEntry : MenuListEntry) (t : option HTMLElement)
    : M MenuBar unit :=
  focus t ;;
  match ref menuEntry with
  | Some r => set_isOpen r true
  | None => throw no_ref_message
  end.

Definition blur (e : FocusEvent) (menuEntry : MenuListEntry) : M MenuBar unit :=
  this <- get ;;
  if bool_decide (closest_menu_bar_input (target e) ≠ Some (el this))
  then match ref menuEntry with
       | Some r => set_isOpen r false
       | None => ret tt
       end
  else ret tt.

Definition visitWebsite (url : string) : M MenuBar unit :=
  emit (WindowOpen url "_blank").

(** The template's function ref of entry [index]:
    [(ref) => ref && (entry.ref = ref)]. *)
Definition setRef (index : nat) (r : option nat) : M MenuBar unit :=
  match r with
  | Some child =>
      modify (fun this =>
        with_entries this
          (alter (fun entry => with_ref entry (Some child)) index (entries this)))
  | None => ret tt
  end.

(** The events the template listens to.  [Click], [Blur] and [Ref] belong
    to the entry container at [index]; Vue calls the function ref of a
    container with that container's own [MenuList] or with null. *)
Inductive Event : Type :=
| Click (index : nat) (t : option HTMLElement)
| Blur (index : nat) (e : FocusEvent)
| Ref (index : nat) (present : bool)
| LogoClick.

(** Which handler the template runs; [None] when there is no entry
    container at that index. *)
Definition dispatch (ev : Event) (this : MenuBar) : option (Run MenuBar unit) :=
  match ev with
  | Click index t =>
      match entries this !! index with
      | Some entry => Some (onClick entry t this)
      | None => None
      end
  | Blur index e =>
      match entries this !! index with
      | Some entry => Some (blur e entry this)
      | None => None
      end
  | Ref index present =>
      match entries this !! index, menuLists this !! index with
      | Some _, Some _ =>
          Some (setRef index (if present then Some index else None) this)
      | _, _ => None
      end
  | LogoClick => Some (visitWebsite "https://graphite.rs" this)
  end.

(** One event: the component it leaves.  A handler that throws leaves
    the component as it was at the throw. *)
Definition step (this : MenuBar) (ev : Event) : MenuBar :=
  match dispatch ev this with
  | Some r => final r
  | None => this
  end.

Definition run_events (evs : list Event) (this : MenuBar) : MenuBar :=
  fold_left step evs this.

(** The states the component can be in. *)
Inductive reachable (root : nat) (ed : Editor) : MenuBar -> Prop :=
| reachable_mount : reachable root ed (mount root ed)
| reachable_step this ev :
    reachable root ed this -> reachable root ed (step this ev).

(** [entry.ref?.isOpen], as the template reads it for the [open] class. *)
Definition entry_isOpen (this : MenuBar) (entry : MenuListEntry) : bool :=
  match ref entry with
  | Some r =>
      match menuLists this !! r with
      | Some m => isOpen m
      | None => false
      end
  | None => false
  end.

(** Is the entry at [index] shown open? *)
Definition open_at (this : MenuBar) (index : nat) : bool :=
  match entries this !! index with
  | Some entry => entry_isOpen this entry
  | None => false
  end.

(** The top-level entries that are shown open. *)
Definition open_indices (this : MenuBar) : list nat :=
  filter (fun index => open_at this index = true) (seq 0 (length (entries this))).

(** An event whose target lies outside the menu bar. *)
Definition outside (this : MenuBar) (e : FocusEvent) : Prop :=
  closest_menu_bar_input (target e) ≠ Some (el this).

(** Two entries that agree on every static property. *)
Definition same_static (e e0 : MenuListEntry) : Prop :=
  label e = label e0 /\ icon e = icon e0 /\ shortcut e = shortcut e0 /\
  shortcutRequiresLock e = shortcutRequiresLock e0 /\
  checkbox e = checkbox e0 /\ checked e = checked e0 /\
  children e = children e0 /\ action e = action e0.

(** At most one top-level entry is shown open. *)
Definition at_most_one_open (this : MenuBar) : Prop :=
  forall j k, open_at this j = true -> open_at this k = true -> j = k.

(** A sequence of events in which an entry is clicked only while no
    other entry is shown open. *)
Fixpoint exclusive_clicks (evs : list Event) (this : MenuBar) : bool :=
  match evs with
  | [] => true
  | ev :: rest =>
      match ev with
      | Click index _ => forallb (Nat.eqb index) (open_indices this)
      | _ => true
      end
      && exclusive_clicks rest (step this ev)
  end.

(** The methods listed in the specification's section on external
    interfaces, in the order of that list. *)
Definition external_interface : list EditorMethod :=
  [ request_new_document_dialog; open_document;
    close_active_document_with_confirmation;
    close_all_documents_with_confirmation;
    save_document; export_document; undo; redo; cut; copy;
    select_all_layers; deselect_all_layers; reorder_selected_layers;
    toggle_node_graph_visibility; request_about_graphite_dialog;
    log_level_info; log_level_debug; log_level_trace; intentional_panic ].

(** What holds of the component in every state it can be in: the root
    element, the editor and [open] stay as created; there is one
    [MenuList] child for each entry; an entry refers to no child or to
    its own; a child that is open is referred to by its entry. *)
Record wf (root : nat) (ed : Editor) (this : MenuBar) : Prop := {
  wf_el : el this = root;
  wf_editor : editor this = ed;
  wf_open : open this = false;
  wf_children : length (menuLists this) = length (entries this);
  wf_static : Forall2 same_static (entries this) (makeEntries ed);
  wf_ref : forall i entry,
      entries this !! i = Some entry -> ref entry = None \/ ref entry = Some i;
  wf_opened : forall i m,
      menuLists this !! i = Some m -> isOpen m = true ->
      ref <$> entries this !! i = Some (Some i)
}.

End MenuBarInput.

(** ** Panel.vue *)

Module Panel.

Inductive PanelTypes : Type :=
| Document | Properties | LayerTree | NodeGraph | IconButton | PopoverButton.

(** A callback of the parent, seen from the panel: called with an index
    it returns or throws. *)
Definition Callback : Type := nat -> result unit.

(** The props.  [tabActiveIndex] is a number; it is compared with the
    tab indices only, so it is modelled as an integer (a number that is
    not an integer equals no index). *)
Record Props : Type := {
  tabMinWidths : bool;
  tabCloseButtons : bool;
  tabLabels : list string;
  tabActiveIndex : Z;
  panelType : PanelTypes;
  clickAction : option Callback;
  closeAction : option Callback
}.

Record MouseEvent : Type := { button : Z }.

(** [e?.stopPropagation()] *)
Definition stopPropagation (e : option MouseEvent) : M Props unit :=
  match e with
  | Some _ => emit StopPropagation
  | None => ret tt
  end.

(** [action?.(index)] for one of the two optional props. *)
Definition optional_call (prop : Props -> option Callback)
    (call : nat -> Invocation) (index : nat) : M Props unit :=
  this <- get ;;
  match prop this with
  | Some f => emit (call index) ;; lift (f index)
  | None => ret tt
  end.

(** [(e) => (e?.stopPropagation(), clickAction?.(tabIndex))] *)
Definition onTabClick (tabIndex : nat) (e : option MouseEvent) : M Props unit :=
  stopPropagation e ;; optional_call clickAction ClickAction tabIndex.

(** [(e) => (e?.stopPropagation(), closeAction?.(tabIndex))], on the tab
    for the middle button. *)
Definition onTabMiddleClick (tabIndex : nat) (e : option MouseEvent)
    : M Props unit :=
  stopPropagation e ;; optional_call closeAction CloseAction tabIndex.

(** The same function as the [action] of the tab's close button. *)
Definition onCloseButton (tabIndex : nat) (e : option MouseEvent)
    : M Props unit :=
  stopPropagation e ;; optional_call closeAction CloseAction tabIndex.

(** One rendered tab. *)
Record Tab : Type := {
  tab_label : string;
  active : bool;
  click : option MouseEvent -> M Props unit;
  click_middle : option MouseEvent -> M Props unit;
  close_button : option (option MouseEvent -> M Props unit)
}.

(** [v-for="(tabLabel, tabIndex) in tabLabels"] *)
Definition render (p : Props) : list Tab :=
  imap (fun tabIndex tabLabel =>
          {| tab_label := tabLabel;
             active := bool_decide (Z.of_nat tabIndex = tabActiveIndex p);
             click := onTabClick tabIndex;
             click_middle := onTabMiddleClick tabIndex;
             close_button :=
               if tabCloseButtons p then Some (onCloseButton tabIndex) else None |})
       (tabLabels p).

(** What the user can do to the tab at a position of the strip. *)
Inductive Event : Type :=
| TabClick (position : nat) (e : option MouseEvent)
| TabMiddleClick (position : nat) (e : option MouseEvent)
| CloseButtonClick (position : nat) (e : option MouseEvent).

Definition position (ev : Event) : nat :=
  match ev with
  | TabClick i _ | TabMiddleClick i _ | CloseButtonClick i _ => i
  end.

(** The handler of the rendered tab that the event reaches; [None] when
    there is no such tab or the tab has no close button. *)
Definition dispatch (ev : Event) (p : Props) : option (Run Props unit) :=
  match ev with
  | TabClick i e =>
      match render p !! i with
      | Some t => Some (click t e p)
      | None => None
      end
  | TabMiddleClick i e =>
      match render p !! i with
      | Some t => Some (click_middle t e p)
      | None => None
      end
  | CloseButtonClick i e =>
      match render p !! i with
      | Some t =>
          match close_button t with
          | Some h => Some (h e p)
          | None => None
          end
      | None => None
      end
  end.

(** The positions of the tabs that carry the [active] class. *)
Definition active_tabs (p : Props) : list nat :=
  filter (fun i => (active <$> render p !! i) = Some true)
         (seq 0 (length (render p))).

Definition in_bounds (p : Props) : Prop :=
  (0 <= tabActiveIndex p < Z.of_nat (length (tabLabels p)))%Z.

(** The calls of a handler that go to the parent's callbacks. *)
Definition is_callback (c : Invocation) : bool :=
  match c with
  | ClickAction _ | CloseAction _ => true
  | _ => false
  end.

Definition callback_index (c : Invocation) : option nat :=
  match c with
  | ClickAction i | CloseAction i => Some i
  | _ => None
  end.

Definition callbacks (cs : list Invocation) : list Invocation :=
  List.filter is_callback cs.

(** The calls [e?.stopPropagation()] makes. *)
Definition propagation (e : option MouseEvent) : list Invocation :=
  match e with
  | Some _ => [StopPropagation]
  | None => []
  end.

#[global] Instance in_bounds_dec (p : Props) : Decision (in_bounds p).
Proof. unfold in_bounds. apply _. Defined.

End Panel.

(** ** Concrete inputs used in the examples *)

Module Samples.

Import MenuBarInput.

(** An editor whose [i32_max()] and [i32_min()] are the bounds of a
    32-bit signed integer. *)
Definition editor32 : Editor :=
  {| instance := {| i32_max_result := 2147483647;
                    i32_min_result := -2147483648 |} |}.

(** The root element of the menu bar has node number 1. *)
Definition root : nat := 1.

(** The entry element of "File", inside the menu bar. *)
Definition file_div : HTMLElement :=
  {| node := 10; closest_menu_bar_input := Some root |}.

(** The entry element of "Edit", inside the menu bar. *)
Definition edit_div : HTMLElement :=
  {| node := 11; closest_menu_bar_input := Some root |}.

(** An element of the page that is not below the menu bar. *)
Definition canvas : HTMLElement :=
  {| node := 20; closest_menu_bar_input := None |}.

Definition blur_inside : FocusEvent := {| target := file_div |}.
Definition blur_outside : FocusEvent := {| target := canvas |}.

(** The function refs have run for every entry. *)
Definition refs_set : list Event :=
  [Ref 0 true; Ref 1 true; Ref 2 true; Ref 3 true; Ref 4 true; Ref 5 true].

(** "File" is clicked, loses the focus to "Edit", "Edit" is clicked. *)
Definition file_then_edit : list Event :=
  refs_set ++ [Click 0 (Some file_div); Blur 0 blur_inside; Click 1 (Some edit_div)].

Definition both_open : MenuBar := run_events file_then_edit (mount root editor32).

(** "File" is clicked, blurred from outside the bar, then "Edit" is
    clicked. *)
Definition file_closed_then_edit : list Event :=
  refs_set ++ [Click 0 (Some file_div); Blur 0 blur_outside; Click 1 (Some edit_div)].

(** The component once every function ref has run. *)
Definition refs_ready : MenuBar := run_events refs_set (mount root editor32).

(** The "File" entry before and after its function ref has run. *)
Definition file_entry : MenuListEntry :=
  default (plain "") (entries (mount root editor32) !! 0).
Definition file_ready : MenuListEntry :=
  default (plain "") (entries refs_ready !! 0).

(** A Document panel that shows three tabs and knows both callbacks. *)
Definition three_tabs : Panel.Props :=
  {| Panel.tabMinWidths := true;
     Panel.tabCloseButtons := true;
     Panel.tabLabels := ["a.gdd"; "b.gdd"; "c.gdd"];
     Panel.tabActiveIndex := 1;
     Panel.panelType := Panel.Document;
     Panel.clickAction := Some (fun _ => Ok tt);
     Panel.closeAction := Some (fun _ => Ok tt) |}.

(** A panel without callbacks, as the Properties panel is used. *)
Definition no_callbacks : Panel.Props :=
  {| Panel.tabMinWidths := false;
     Panel.tabCloseButtons := true;
     Panel.tabLabels := ["Properties"];
     Panel.tabActiveIndex := 0;
     Panel.panelType := Panel.Properties;
     Panel.clickAction := None;
     Panel.closeAction := None |}.

(** A panel whose active index points past its only tab. *)
Definition stale_index : Panel.Props :=
  {| Panel.tabMinWidths := true;
     Panel.tabCloseButtons := true;
     Panel.tabLabels := ["Untitled Document"];
     Panel.tabActiveIndex := 1;
     Panel.panelType := Panel.Document;
     Panel.clickAction := Some (fun _ => Ok tt);
     Panel.closeAction := Some (fun _ => Ok tt) |}.

Definition left_click : Panel.MouseEvent := {| Panel.button := 0 |}.
Definition middle_click : Panel.MouseEvent := {| Panel.button := 1 |}.

End Samples.

(** ** Views of events, used to state how handlers compose *)

Module MenuBarViews.

Import MenuBarInput.

(** The entry container an event of the template belongs to; the logo
    belongs to none. *)
Definition event_index (ev : Event) : option nat :=
  match ev with
  | Click i _ | Blur i _ | Ref i _ => Some i
  | LogoClick => None
  end.

(** Is the event a function ref called with a [MenuList]? *)
Definition sets_ref (ev : Event) : bool :=
  match ev with
  | Ref _ true => true
  | _ => false
  end.

(** The items below an entry, all its sections together. *)
Definition submenu (e : MenuListEntry) : list MenuListEntry :=
  concat (default [] (children e)).

(** The entries of a table below the top level. *)
Definition nested_entries (es : list MenuListEntry) : list MenuListEntry :=
  concat (map flatten (concat (map submenu es))).

(** The entry at [i] refers to its own [MenuList]. *)
Definition has_ref (this : MenuBar) (i : nat) : Prop :=
  exists entry, entries this !! i = Some entry /\ ref entry = Some i.

(** The one write a handler run makes to the component, if it makes
    one: [r.isOpen = b] on a child, or [entry.ref = child] on an entry. *)
Inductive Change : Type :=
| Keep
| SetOpen (child : nat) (b : bool)
| SetRef (index : nat).

Definition change_index (c : Change) : option nat :=
  match c with
  | Keep => None
  | SetOpen i _ | SetRef i => Some i
  end.

Definition apply_change (c : Change) (this : MenuBar) : MenuBar :=
  match c with
  | Keep => this
  | SetOpen r b =>
      with_menuLists this (alter (fun _ => {| isOpen := b |}) r (menuLists this))
  | SetRef i =>
      with_entries this
        (alter (fun entry => with_ref entry (Some i)) i (entries this))
  end.

(** The write that the handler of an event makes in a given state. *)
Definition effect (ev : Event) (this : MenuBar) : Change :=
  match ev with
  | Click i _ =>
      match entries this !! i with
      | Some entry =>
          match ref entry with
          | Some r => SetOpen r true
          | None => Keep
          end
      | None => Keep
      end
  | Blur i e =>
      match entries this !! i with
      | Some entry =>
          match ref entry with
          | Some r =>
              if bool_decide (closest_menu_bar_input (target e) ≠ Some (el this))
              then SetOpen r false
              else Keep
          | None => Keep
          end
      | None => Keep
      end
  | Ref i present =>
      match entries this !! i, menuLists this !! i with
      | Some _, Some _ => if present then SetRef i else Keep
      | _, _ => Keep
      end
  | LogoClick => Keep
  end.

End MenuBarViews.

Module PanelViews.

Import Panel.

(** The event object a gesture hands to its handler. *)
Definition mouse_event (ev : Event) : option MouseEvent :=
  match ev with
  | TabClick _ e | TabMiddleClick _ e | CloseButtonClick _ e => e
  end.


(** The prop a gesture calls, and the call it makes. *)
Definition callback_prop (ev : Event) (p : Props) : option Callback :=
  match ev with
  | TabClick _ _ => clickAction p
  | TabMiddleClick _ _ | CloseButtonClick _ _ => closeAction p
  end.

Definition callback_call (ev : Event) : Invocation :=
  match ev with
  | TabClick i _ => ClickAction i
  | TabMiddleClick i _ | CloseButtonClick i _ => CloseAction i
  end.

(** A Document panel whose parent refuses to select or close a tab. *)
Definition refusing_parent : Props :=
  {| tabMinWidths := true;
     tabCloseButtons := true;
     tabLabels := ["a.gdd"; "b.gdd"];
     tabActiveIndex := 0;
     panelType := Document;
     clickAction := Some (fun _ => Throw "cannot select");
     closeAction := Some (fun _ => Throw "cannot close") |}.

End PanelViews.

(** ** Properties of the menu bar *)

Module MenuBarFacts.

Import MenuBarInput.

(** *** What one handler does *)

Lemma onClick_unfold menuEntry t this :
  onClick menuEntry t this =
  MkRun
    match ref menuEntry with
    | Some r => with_menuLists this (alter (fun _ => {| isOpen := true |}) r (menuLists this))
    | None => this
    end
    match t with Some elem => [Focus (node elem)] | None => [] end
    match ref menuEntry with
    | Some _ => Ok tt
    | None => Throw no_ref_message
    end.
Proof. destruct t, (ref menuEntry) eqn:E; unfold onClick; rewrite E; reflexivity. Qed.

Lemma blur_unfold e menuEntry this :
  blur e menuEntry this =
  MkRun
    match ref menuEntry with
    | Some r =>
        if bool_decide (closest_menu_bar_input (target e) ≠ Some (el this))
        then with_menuLists this (alter (fun _ => {| isOpen := false |}) r (menuLists this))
        else this
    | None => this
    end
    [] (Ok tt).
Proof.
  unfold blur, bind, get; simpl.
  destruct (bool_decide _), (ref menuEntry); reflexivity.
Qed.

Lemma setRef_unfold index r this :
  setRef index r this =
  MkRun
    match r with
    | Some child =>
        with_entries this
          (alter (fun entry => with_ref entry (Some child)) index (entries this))
    | None => this
    end
    [] (Ok tt).
Proof. destruct r; reflexivity. Qed.

Lemma same_static_refl e : same_static e e.
Proof. repeat split. Qed.

Lemma same_static_with_ref e e0 r :
  same_static e e0 -> same_static (with_ref e r) e0.
Proof. intros H; exact H. Qed.

(** *** The invariant *)

Lemma makeEntries_no_ref ed : Forall (fun e => ref e = None) (makeEntries ed).
Proof. repeat constructor. Qed.

Lemma wf_mount root ed : wf root ed (mount root ed).
Proof.
  split; try reflexivity.
  - apply Forall2_same_length_lookup_2; [reflexivity|].
    intros i x y Hx Hy. simpl in Hx.
    assert (x = y) as -> by congruence. apply same_static_refl.
  - intros i entry H. left.
    exact (proj1 (Forall_lookup _ _) (makeEntries_no_ref ed) i entry H).
  - intros i m H Hopen. apply lookup_replicate in H as [-> _]. discriminate.
Qed.

Lemma wf_set_isOpen root ed this index entry b :
  wf root ed this ->
  entries this !! index = Some entry ->
  ref entry = Some index ->
  wf root ed (with_menuLists this (alter (fun _ => {| isOpen := b |}) index (menuLists this))).
Proof.
  intros [] Hentry Href. split; simpl; try assumption.
  - rewrite length_alter. assumption.
  - intros i m Hm Hopen.
    destruct (decide (i = index)) as [->|Hne].
    + rewrite Hentry. simpl. congruence.
    + rewrite list_lookup_alter_ne in Hm by congruence. eauto.
Qed.

Lemma wf_step root ed this ev : wf root ed this -> wf root ed (step this ev).
Proof.
  intros Hwf. unfold step, dispatch.
  destruct ev as [index t|index e|index present|].
  - destruct (entries this !! index) as [entry|] eqn:Hentry; [|assumption].
    rewrite onClick_unfold; simpl.
    destruct (ref entry) as [r|] eqn:Href; [|assumption].
    destruct (wf_ref _ _ _ Hwf _ _ Hentry) as [?|Hr]; [congruence|].
    assert (r = index) as -> by congruence.
    eapply wf_set_isOpen; eauto.
  - destruct (entries this !! index) as [entry|] eqn:Hentry; [|assumption].
    rewrite blur_unfold; simpl.
    destruct (ref entry) as [r|] eqn:Href; [|assumption].
    destruct (bool_decide _); [|assumption].
    destruct (wf_ref _ _ _ Hwf _ _ Hentry) as [?|Hr]; [congruence|].
    assert (r = index) as -> by congruence.
    eapply wf_set_isOpen; eauto.
  - destruct (entries this !! index) as [entry|] eqn:Hentry; [|assumption].
    destruct (menuLists this !! index) as [m|] eqn:Hm; [|assumption].
    rewrite setRef_unfold; simpl.
    destruct present; [|assumption].
    destruct Hwf. split; simpl; try assumption.
    + rewrite length_alter. assumption.
    + apply Forall2_alter_l; [assumption|].
      intros x y _ _ H. apply same_static_with_ref, H.
    + intros i e' He'.
      destruct (decide (i = index)) as [->|Hne].
      * rewrite list_lookup_alter_eq, Hentry in He'. injection He' as <-.
        right; reflexivity.
      * rewrite list_lookup_alter_ne in He' by congruence. eauto.
    + intros i m' Hm' Hopen.
      destruct (decide (i = index)) as [->|Hne].
      * rewrite list_lookup_alter_eq, Hentry. reflexivity.
      * rewrite list_lookup_alter_ne by congruence. eauto.
  - simpl. assumption.
Qed.

Lemma wf_reachable root ed this : reachable root ed this -> wf root ed this.
Proof. induction 1; auto using wf_mount, wf_step. Qed.

Lemma reachable_run root ed evs this :
  reachable root ed this -> reachable root ed (run_events evs this).
Proof.
  revert this. induction evs as [|ev evs IH]; intros this H; simpl; [assumption|].
  apply IH. constructor. assumption.
Qed.

Lemma wf_run root ed evs : wf root ed (run_events evs (mount root ed)).
Proof. apply wf_reachable, reachable_run. constructor. Qed.

(** *** How one event changes what is shown open *)

Lemma open_at_lt this j : open_at this j = true -> j < length (entries this).
Proof.
  unfold open_at. destruct (entries this !! j) eqn:E; [|discriminate].
  intros _. eapply lookup_lt_Some, E.
Qed.

Lemma elem_of_open_indices this j : j ∈ open_indices this <-> open_at this j = true.
Proof.
  unfold open_indices. rewrite list_elem_of_filter, elem_of_seq.
  split; [tauto|]. intros H. split; [assumption|].
  apply open_at_lt in H. lia.
Qed.

Lemma open_at_set_isOpen root ed this index entry b :
  wf root ed this ->
  entries this !! index = Some entry ->
  ref entry = Some index ->
  let this' :=
    with_menuLists this (alter (fun _ => {| isOpen := b |}) index (menuLists this)) in
  open_at this' index = b /\
  forall j, j ≠ index -> open_at this' j = open_at this j.
Proof.
  intros Hwf Hentry Href this'. split.
  - unfold open_at, entry_isOpen; simpl. rewrite Hentry, Href.
    rewrite list_lookup_alter_eq.
    destruct (menuLists this !! index) eqn:Hm; [reflexivity|].
    apply lookup_ge_None in Hm. apply lookup_lt_Some in Hentry.
    rewrite (wf_children _ _ _ Hwf) in Hm. lia.
  - intros j Hj. unfold open_at, entry_isOpen; simpl.
    destruct (entries this !! j) as [ej|] eqn:Hej; [|reflexivity].
    destruct (wf_ref _ _ _ Hwf _ _ Hej) as [->| ->]; [reflexivity|].
    rewrite list_lookup_alter_ne by congruence. reflexivity.
Qed.

Lemma open_at_click root ed this index t j :
  wf root ed this ->
  open_at (step this (Click index t)) j = true ->
  j = index \/ open_at this j = true.
Proof.
  intros Hwf. unfold step, dispatch.
  destruct (entries this !! index) as [entry|] eqn:Hentry; [|auto].
  rewrite onClick_unfold; simpl.
  destruct (ref entry) as [r|] eqn:Href; [|auto].
  destruct (wf_ref _ _ _ Hwf _ _ Hentry) as [?|Hr]; [congruence|].
  assert (r = index) as -> by congruence.
  destruct (decide (j = index)) as [|Hne]; [auto|].
  destruct (open_at_set_isOpen _ _ _ _ _ true Hwf Hentry Href) as [_ Hother].
  rewrite (Hother j Hne). auto.
Qed.

Lemma open_at_blur root ed this index e j :
  wf root ed this ->
  open_at (step this (Blur index e)) j = true -> open_at this j = true.
Proof.
  intros Hwf. unfold step, dispatch.
  destruct (entries this !! index) as [entry|] eqn:Hentry; [|auto].
  rewrite blur_unfold; simpl.
  destruct (ref entry) as [r|] eqn:Href; [|auto].
  destruct (bool_decide _); [|auto].
  destruct (wf_ref _ _ _ Hwf _ _ Hentry) as [?|Hr]; [congruence|].
  assert (r = index) as -> by congruence.
  destruct (open_at_set_isOpen _ _ _ _ _ false Hwf Hentry Href) as [Hidx Hother].
  destruct (decide (j = index)) as [->|Hne].
  - rewrite Hidx. discriminate.
  - rewrite (Hother j Hne). auto.
Qed.

Lemma open_at_ref root ed this index present j :
  wf root ed this ->
  open_at (step this (Ref index present)) j = true -> open_at this j = true.
Proof.
  intros Hwf. unfold step, dispatch.
  destruct (entries this !! index) as [entry|] eqn:Hentry; [|auto].
  destruct (menuLists this !! index) as [m|] eqn:Hm; [|auto].
  rewrite setRef_unfold; simpl.
  destruct present; [|auto].
  unfold open_at, entry_isOpen; simpl.
  destruct (decide (j = index)) as [->|Hne].
  - rewrite list_lookup_alter_eq, Hentry; simpl. rewrite Hm.
    intros Hopen. pose proof (wf_opened _ _ _ Hwf _ _ Hm Hopen) as H.
    rewrite Hentry in H. simpl in H. injection H as ->. rewrite Hm. assumption.
  - rewrite list_lookup_alter_ne by congruence. auto.
Qed.

Lemma open_at_mount root ed j : open_at (mount root ed) j = false.
Proof.
  unfold open_at, entry_isOpen.
  destruct (entries (mount root ed) !! j) as [entry|] eqn:E; [|reflexivity].
  destruct (wf_ref _ _ _ (wf_mount root ed) _ _ E) as [->|H]; [reflexivity|].
  pose proof (proj1 (Forall_lookup _ _) (makeEntries_no_ref ed) j entry E).
  congruence.
Qed.

Lemma exclusive_run root ed evs this :
  wf root ed this ->
  at_most_one_open this ->
  exclusive_clicks evs this = true ->
  at_most_one_open (run_events evs this).
Proof.
  revert this. induction evs as [|ev evs IH]; intros this Hwf Hone Hex; simpl.
  - assumption.
  - simpl in Hex. apply andb_true_iff in Hex as [Hev Hrest].
    apply IH; [apply wf_step, Hwf | | assumption].
    destruct ev as [index t|index e|index present|].
    + rewrite forallb_forall in Hev.
      assert (forall j, open_at (step this (Click index t)) j = true -> j = index) as Hall.
      { intros j Hj. apply (open_at_click root ed) in Hj as [|Hj]; [assumption | | assumption].
        apply elem_of_open_indices, list_elem_of_In, Hev in Hj.
        symmetry. apply Nat.eqb_eq, Hj. }
      intros j k Hj Hk. rewrite (Hall j Hj), (Hall k Hk). reflexivity.
    + intros j k Hj Hk. apply Hone; eapply open_at_blur; eauto.
    + intros j k Hj Hk. apply Hone; eapply open_at_ref; eauto.
    + exact Hone.
Qed.

(** *** The claims *)

(** In a state the component can be in, a click on a top-level entry
    whose function ref has run shows that entry open. *)
Lemma click_opens root ed this index entry t :
  reachable root ed this ->
  entries this !! index = Some entry ->
  ref entry ≠ None ->
  open_at (step this (Click index t)) index = true.
Proof.
  intros Hreach Hentry Href. apply wf_reachable in Hreach as Hwf.
  unfold step, dispatch. rewrite Hentry, onClick_unfold; simpl.
  destruct (wf_ref _ _ _ Hwf _ _ Hentry) as [?|Hr]; [congruence|].
  rewrite Hr.
  apply (open_at_set_isOpen _ _ _ _ _ true Hwf Hentry Hr).
Qed.

(** C2.  Invoking [onClick] on an entry whose [ref] is defined returns
    normally and leaves that entry's open flag, [entry.ref.isOpen], true.
    First for the handler on any component, where a defined [ref] is a
    reference to one of the component's [MenuList] children; then for
    every entry of the menu bar in every state the component can be in,
    where a defined [ref] always is such a reference. *)
Theorem onClick_sets_open_flag :
  (forall this menuEntry t r,
     ref menuEntry = Some r ->
     r < length (menuLists this) ->
     outcome (onClick menuEntry t this) = Ok tt /\
     entry_isOpen (final (onClick menuEntry t this)) menuEntry = true) /\
  (forall root ed this index entry t,
     reachable root ed this ->
     entries this !! index = Some entry ->
     ref entry ≠ None ->
     outcome <$> dispatch (Click index t) this = Some (Ok tt) /\
     open_at (step this (Click index t)) index = true).
Proof.
  split.
  - intros this menuEntry t r Href Hr.
    rewrite onClick_unfold, Href; simpl. split; [reflexivity|].
    unfold entry_isOpen; simpl. rewrite Href, list_lookup_alter_eq.
    destruct (lookup_lt_is_Some_2 _ _ Hr) as [m ->]. reflexivity.
  - intros root ed this index entry t Hreach Hentry Href. split.
    + unfold dispatch. rewrite Hentry. simpl. rewrite onClick_unfold.
      destruct (ref entry); [reflexivity | congruence].
    + eapply click_opens; eassumption.
Qed.

(** C1, as amended.  A blur on an entry whose event target lies outside
    the menu bar leaves that entry closed and leaves the open flag of
    every other entry as it was. *)
Theorem blur_outside_closes_blurred_entry root ed this index e :
  reachable root ed this ->
  outside this e ->
  open_at (step this (Blur index e)) index = false /\
  forall j, j ≠ index -> open_at (step this (Blur index e)) j = open_at this j.
Proof.
  intros Hreach Hout. apply wf_reachable in Hreach as Hwf.
  unfold step, dispatch.
  destruct (entries this !! index) as [entry|] eqn:Hentry.
  - rewrite blur_unfold; simpl.
    unfold outside in Hout. rewrite bool_decide_eq_true_2 by assumption.
    destruct (ref entry) as [r|] eqn:Href.
    + destruct (wf_ref _ _ _ Hwf _ _ Hentry) as [?|Hr]; [congruence|].
      assert (r = index) as -> by congruence.
      apply (open_at_set_isOpen _ _ _ _ _ false Hwf Hentry Href).
    + split; [|reflexivity].
      unfold open_at, entry_isOpen. rewrite Hentry, Href. reflexivity.
  - split; [|reflexivity]. unfold open_at. rewrite Hentry. reflexivity.
Qed.

(** C4, as amended.  The handlers do not close the siblings of a clicked
    entry.  At most one top-level entry is shown open after every
    sequence of events in which an entry is clicked only while no other
    entry is shown open. *)
Theorem exclusive_when_clicked_one_at_a_time root ed evs :
  exclusive_clicks evs (mount root ed) = true ->
  at_most_one_open (run_events evs (mount root ed)).
Proof.
  apply (exclusive_run root ed); [apply wf_mount|].
  intros j k Hj. rewrite open_at_mount in Hj. discriminate.
Qed.

(** C8.  After every sequence of events the entries carry the label,
    icon, shortcut, checkbox state, children and action of the static
    table, position by position; the component's own [open] property is
    as [data()] returned it.  Only [ref] and the open flag of the child
    it refers to change. *)
Theorem entries_static_under_handlers root ed evs :
  Forall2 same_static (entries (run_events evs (mount root ed))) (makeEntries ed) /\
  open (run_events evs (mount root ed)) = snd (data ed) /\
  length (menuLists (run_events evs (mount root ed))) = length (makeEntries ed).
Proof.
  pose proof (wf_run root ed evs) as Hwf. split; [|split].
  - apply (wf_static _ _ _ Hwf).
  - apply (wf_open _ _ _ Hwf).
  - rewrite (wf_children _ _ _ Hwf).
    apply (Forall2_length _ _ _ (wf_static _ _ _ Hwf)).
Qed.

Lemma onClick_sets_open_flag_witness :
  (outcome (onClick Samples.file_ready (Some Samples.file_div) Samples.refs_ready) = Ok tt /\
   entry_isOpen
     (final (onClick Samples.file_ready (Some Samples.file_div) Samples.refs_ready))
     Samples.file_ready = true) /\
  (outcome <$> dispatch (Click 0 (Some Samples.file_div)) Samples.refs_ready =
     Some (Ok tt) /\
   open_at (step Samples.refs_ready (Click 0 (Some Samples.file_div))) 0 = true).
Proof.
  destruct onClick_sets_open_flag as [Hhandler Hentry]. split.
  - apply (Hhandler Samples.refs_ready Samples.file_ready
             (Some Samples.file_div) 0).
    + reflexivity.
    + simpl. lia.
  - apply (Hentry Samples.root Samples.editor32 Samples.refs_ready 0
             Samples.file_ready (Some Samples.file_div)).
    + apply reachable_run. constructor.
    + reflexivity.
    + discriminate.
Defined.

(** C1, counterexample.  "File" and "Edit" have been clicked and are
    both open; a blur on "File" with a target outside the menu bar
    leaves "Edit" open. *)
Lemma blur_outside_leaves_sibling_open :
  reachable Samples.root Samples.editor32 Samples.both_open /\
  outside Samples.both_open Samples.blur_outside /\
  open_indices Samples.both_open = [0; 1] /\
  open_at (step Samples.both_open (Blur 0 Samples.blur_outside)) 1 = true.
Proof.
  split; [apply reachable_run; constructor|].
  split; [discriminate|].
  split; reflexivity.
Qed.

Lemma blur_outside_closes_blurred_entry_witness :
  open_at (step Samples.both_open (Blur 0 Samples.blur_outside)) 0 = false /\
  forall j, j ≠ 0 ->
    open_at (step Samples.both_open (Blur 0 Samples.blur_outside)) j =
    open_at Samples.both_open j.
Proof.
  apply (blur_outside_closes_blurred_entry Samples.root Samples.editor32).
  - apply reachable_run. constructor.
  - discriminate.
Defined.

(** C4, counterexample.  The component is rendered, the function refs
    have run and every entry is closed.  "File" is clicked, loses the
    focus to "Edit" (the target of that blur is inside the bar, so [blur]
    does nothing), "Edit" is clicked.  Both are open. *)
Lemma two_entries_open_at_once :
  Samples.both_open =
    run_events
      [Click 0 (Some Samples.file_div); Blur 0 Samples.blur_inside;
       Click 1 (Some Samples.edit_div)]
      Samples.refs_ready /\
  open_indices Samples.refs_ready = [] /\
  open_at Samples.both_open 0 = true /\
  open_at Samples.both_open 1 = true /\
  ~ at_most_one_open Samples.both_open.
Proof.
  repeat (split; [reflexivity|]).
  intros H. specialize (H 0 1 eq_refl eq_refl). discriminate H.
Qed.

Lemma exclusive_when_clicked_one_at_a_time_witness :
  at_most_one_open
    (run_events Samples.file_closed_then_edit (mount Samples.root Samples.editor32)).
Proof.
  apply (exclusive_when_clicked_one_at_a_time Samples.root Samples.editor32
           Samples.file_closed_then_edit).
  reflexivity.
Defined.

(** Membership in a list that is written out. *)
Ltac listed := repeat constructor.
Ltac unlist H tac :=
  repeat (apply elem_of_cons in H as [-> | H]; [tac|]); inversion H.
Ltac not_listed H :=
  repeat (apply elem_of_cons in H as [H | H]; [discriminate H|]); inversion H.

Lemma in_table_actions ed a :
  a ∈ table_actions (makeEntries ed) <->
  exists entry, entry ∈ all_entries (makeEntries ed) /\ action entry = Some a.
Proof. unfold table_actions. apply list_elem_of_omap. Qed.

Lemma elem_of_concat_map {A B} (f : A -> list B) (l : list A) (y : B) :
  y ∈ concat (map f l) <-> exists x, x ∈ l /\ y ∈ f x.
Proof.
  rewrite list_elem_of_In, in_concat. split.
  - intros (ys & Hys & Hy). apply in_map_iff in Hys as (x & <- & Hx).
    exists x. split; apply list_elem_of_In; assumption.
  - intros (x & Hx & Hy). exists (f x).
    split; [apply in_map|]; apply list_elem_of_In; assumption.
Qed.

(** C5, counterexample.  The action of Layer > Order > "Raise To Front"
    invokes [editor.instance.i32_max()], which the external-interface
    list does not name. *)
Lemma raise_to_front_invokes_i32_max :
  exists a,
    lookup_path ["Layer"; "Order"; "Raise To Front"]
      (makeEntries Samples.editor32) ≫= action = Some a /\
    a ∈ table_actions (makeEntries Samples.editor32) /\
    i32_max ∈ invoked_methods a /\
    CallEditor i32_max [] ∈ invoke a /\
    i32_max ∉ external_interface.
Proof.
  eexists. split; [reflexivity|]. split; [listed|]. split; [listed|].
  split; [listed|].
  intros H. not_listed H.
Qed.

(** C5, as amended.  The editor methods that the actions of the static
    table invoke are the methods of the external-interface list together
    with [i32_max] and [i32_min].  Each listed method is what the action
    of some entry calls, and no action calls another method as its body;
    [i32_max] and [i32_min] are called in argument position only, for
    the number they return, and are not in the list. *)
Theorem entry_actions_invoke_interface_and_bounds ed :
  (forall m,
     (exists a, a ∈ table_actions (makeEntries ed) /\ m ∈ invoked_methods a) <->
     m ∈ external_interface \/ m = i32_max \/ m = i32_min) /\
  (forall m,
     m ∈ external_interface <->
     exists entry a,
       entry ∈ all_entries (makeEntries ed) /\ action entry = Some a /\
       action_method a = Some m) /\
  (forall m,
     (exists a, a ∈ table_actions (makeEntries ed) /\ m ∈ argument_methods a) <->
     m = i32_max \/ m = i32_min) /\
  (i32_max ∉ external_interface) /\ (i32_min ∉ external_interface).
Proof.
  assert (remove_dups (concat (map invoked_methods (table_actions (makeEntries ed))))
          = [ request_new_document_dialog; open_document;
              close_active_document_with_confirmation;
              close_all_documents_with_confirmation; save_document;
              export_document; undo; redo; cut; copy; select_all_layers;
              deselect_all_layers; i32_max; reorder_selected_layers; i32_min;
              toggle_node_graph_visibility; request_about_graphite_dialog;
              log_level_info; log_level_debug; log_level_trace;
              intentional_panic ]) as Hinvoked by reflexivity.
  assert (remove_dups (omap action_method (table_actions (makeEntries ed)))
          = external_interface) as Hcalled by reflexivity.
  assert (concat (map argument_methods (table_actions (makeEntries ed)))
          = [i32_max; i32_min]) as Hargs by reflexivity.
  split; [|split; [|split; [|split]]].
  - intros m. rewrite <- elem_of_concat_map, <- elem_of_remove_dups, Hinvoked.
    split.
    + intros H.
      unlist H ltac:(first [ right; left; reflexivity
                           | right; right; reflexivity
                           | left; listed ]).
    + intros [H | [-> | ->]]; [|listed|listed].
      unlist H ltac:(listed).
  - intros m. rewrite <- Hcalled, elem_of_remove_dups, list_elem_of_omap.
    split.
    + intros (a & Ha & Hm). apply in_table_actions in Ha as (entry & He & Hact).
      eauto.
    + intros (entry & a & He & Hact & Hm). exists a. split; [|assumption].
      apply in_table_actions. eauto.
  - intros m. rewrite <- elem_of_concat_map, Hargs. split.
    + intros H. unlist H ltac:(first [left; reflexivity | right; reflexivity]).
    + intros [-> | ->]; listed.
  - intros H. not_listed H.
  - intros H. not_listed H.
Qed.

(** The [defaultAction] of the template is no entry of the table; the
    method it calls is not in the list. *)
Lemma defaultAction_not_listed ed :
  (defaultAction ed ≫= action_method) = Some request_coming_soon_dialog /\
  (request_coming_soon_dialog ∉ external_interface) /\
  forall a, a ∈ table_actions (makeEntries ed) ->
    action_method a ≠ Some request_coming_soon_dialog.
Proof.
  split; [reflexivity|]. split.
  - intros H. not_listed H.
  - intros a Ha.
    assert (Forall (fun a => action_method a ≠ Some request_coming_soon_dialog)
              (table_actions (makeEntries ed))) as Hall
      by (repeat constructor; discriminate).
    exact (proj1 (Forall_forall _ _) Hall a Ha).
Qed.

(** C9.  The four entries of Layer > Order call
    [reorder_selected_layers] with: the number [i32_max()] returns for
    "Raise To Front", 1 for "Raise", -1 for "Lower", the number
    [i32_min()] returns for "Lower to Back". *)
Theorem order_entries_pass_deltas ed :
  invoke_at ["Layer"; "Order"; "Raise To Front"] (makeEntries ed) =
    Some [CallEditor i32_max [];
          CallEditor reorder_selected_layers [VNumber (i32_max_result (instance ed))]] /\
  invoke_at ["Layer"; "Order"; "Raise"] (makeEntries ed) =
    Some [CallEditor reorder_selected_layers [VNumber 1]] /\
  invoke_at ["Layer"; "Order"; "Lower"] (makeEntries ed) =
    Some [CallEditor reorder_selected_layers [VNumber (-1)]] /\
  invoke_at ["Layer"; "Order"; "Lower to Back"] (makeEntries ed) =
    Some [CallEditor i32_min [];
          CallEditor reorder_selected_layers [VNumber (i32_min_result (instance ed))]].
Proof. repeat split. Qed.

End MenuBarFacts.

(** ** Properties of the panel *)

Module PanelFacts.

Import Panel.

Lemma optional_call_unfold prop call index p :
  optional_call prop call index p =
  MkRun p
    match prop p with Some _ => [call index] | None => [] end
    match prop p with Some f => f index | None => Ok tt end.
Proof.
  unfold optional_call, bind, get; simpl.
  destruct (prop p); reflexivity.
Qed.

Lemma stop_then_call_unfold prop call index e p :
  (stopPropagation e ;; optional_call prop call index) p =
  MkRun p
    (propagation e ++ match prop p with Some _ => [call index] | None => [] end)
    match prop p with Some f => f index | None => Ok tt end.
Proof.
  unfold bind, stopPropagation.
  destruct e; cbn [emit ret outcome final calls];
    rewrite optional_call_unfold; reflexivity.
Qed.

Lemma onTabClick_unfold tabIndex e p :
  onTabClick tabIndex e p =
  MkRun p
    (propagation e ++
     match clickAction p with Some _ => [ClickAction tabIndex] | None => [] end)
    match clickAction p with Some f => f tabIndex | None => Ok tt end.
Proof. apply stop_then_call_unfold. Qed.

Lemma onTabMiddleClick_unfold tabIndex e p :
  onTabMiddleClick tabIndex e p =
  MkRun p
    (propagation e ++
     match closeAction p with Some _ => [CloseAction tabIndex] | None => [] end)
    match closeAction p with Some f => f tabIndex | None => Ok tt end.
Proof. apply stop_then_call_unfold. Qed.

Lemma onCloseButton_unfold tabIndex e p :
  onCloseButton tabIndex e p =
  MkRun p
    (propagation e ++
     match closeAction p with Some _ => [CloseAction tabIndex] | None => [] end)
    match closeAction p with Some f => f tabIndex | None => Ok tt end.
Proof. apply stop_then_call_unfold. Qed.

Lemma callbacks_propagation e cs :
  callbacks (propagation e ++ cs) = callbacks cs.
Proof. destruct e; reflexivity. Qed.

(** What reaches the handlers of the tab at a position. *)
Lemma dispatch_unfold ev p :
  dispatch ev p =
  match tabLabels p !! position ev with
  | Some _ =>
      match ev with
      | TabClick i e => Some (onTabClick i e p)
      | TabMiddleClick i e => Some (onTabMiddleClick i e p)
      | CloseButtonClick i e =>
          if tabCloseButtons p then Some (onCloseButton i e p) else None
      end
  | None => None
  end.
Proof.
  destruct ev as [i e|i e|i e]; unfold dispatch, render; simpl;
    rewrite list_lookup_imap; destruct (tabLabels p !! i); simpl; try reflexivity.
  destruct (tabCloseButtons p); reflexivity.
Qed.

Lemma dispatch_final ev p r : dispatch ev p = Some r -> final r = p.
Proof.
  rewrite dispatch_unfold. destruct (tabLabels p !! position ev); [|discriminate].
  destruct ev as [i e|i e|i e].
  - intros [= <-]. rewrite onTabClick_unfold. reflexivity.
  - intros [= <-]. rewrite onTabMiddleClick_unfold. reflexivity.
  - destruct (tabCloseButtons p); [|discriminate].
    intros [= <-]. rewrite onCloseButton_unfold. reflexivity.
Qed.

Lemma dispatch_calls_index ev p r c j :
  dispatch ev p = Some r -> c ∈ calls r -> callback_index c = Some j ->
  j = position ev.
Proof.
  rewrite dispatch_unfold. destruct (tabLabels p !! position ev); [|discriminate].
  assert (forall e (cs : list Invocation),
            c ∈ propagation e ++ cs -> callback_index c = Some j -> c ∈ cs) as Hskip.
  { intros [?|] cs Hc Hj; simpl in Hc; [|assumption].
    apply elem_of_cons in Hc as [->|Hc]; [discriminate Hj | assumption]. }
  destruct ev as [i e|i e|i e]; simpl.
  - intros [= <-]. rewrite onTabClick_unfold; simpl. intros Hc Hj.
    apply Hskip in Hc; [|assumption].
    destruct (clickAction p); [|inversion Hc].
    apply list_elem_of_singleton in Hc as ->. simpl in Hj. congruence.
  - intros [= <-]. rewrite onTabMiddleClick_unfold; simpl. intros Hc Hj.
    apply Hskip in Hc; [|assumption].
    destruct (closeAction p); [|inversion Hc].
    apply list_elem_of_singleton in Hc as ->. simpl in Hj. congruence.
  - destruct (tabCloseButtons p); [|discriminate].
    intros [= <-]. rewrite onCloseButton_unfold; simpl. intros Hc Hj.
    apply Hskip in Hc; [|assumption].
    destruct (closeAction p); [|inversion Hc].
    apply list_elem_of_singleton in Hc as ->. simpl in Hj. congruence.
Qed.

(** Of the positions below [n], a property that singles out [k]. *)
Lemma filter_seq_single (P : nat -> Prop) `{forall i, Decision (P i)} n k :
  (forall i, i < n -> (P i <-> i = k)) ->
  filter P (seq 0 n) = if decide (k < n) then [k] else [].
Proof.
  induction n as [|n IH]; intros HP.
  - simpl. destruct (decide (k < 0)); [lia | reflexivity].
  - rewrite seq_S, filter_app, IH by (intros i Hi; apply HP; lia).
    simpl. rewrite filter_cons, filter_nil.
    destruct (decide (P n)) as [Hn|Hn].
    + apply HP in Hn; [|lia]. subst k.
      destruct (decide (n < n)); [lia|].
      destruct (decide (n < S n)); [reflexivity | lia].
    + assert (n ≠ k) by (intros ->; apply Hn, HP; [lia | reflexivity]).
      destruct (decide (k < n)), (decide (k < S n)); try lia;
        rewrite ?app_nil_r; reflexivity.
Qed.

Lemma active_iff p i :
  i < length (render p) ->
  (active <$> render p !! i) = Some true <-> Z.of_nat i = tabActiveIndex p.
Proof.
  unfold render. rewrite length_imap, list_lookup_imap. intros Hi.
  destruct (lookup_lt_is_Some_2 _ _ Hi) as [l ->]. simpl.
  split.
  - intros [= H]. apply bool_decide_eq_true in H. exact H.
  - intros H. rewrite bool_decide_eq_true_2 by exact H. reflexivity.
Qed.

(** *** The claims *)

(** C6.  For every index [i] into the tab labels: a click on tab [i]
    calls [clickAction(i)], a middle click on tab [i] and a click on its
    close button call [closeAction(i)], each once and only when the prop
    is given; and whatever a handler of the strip calls, the index it
    passes is the position of the tab the event came from. *)
Theorem tabs_dispatch_by_index p i label :
  tabLabels p !! i = Some label ->
  (forall e,
     (callbacks ∘ calls) <$> dispatch (TabClick i e) p =
     Some (match clickAction p with Some _ => [ClickAction i] | None => [] end)) /\
  (forall e,
     (callbacks ∘ calls) <$> dispatch (TabMiddleClick i e) p =
     Some (match closeAction p with Some _ => [CloseAction i] | None => [] end)) /\
  (forall e,
     (callbacks ∘ calls) <$> dispatch (CloseButtonClick i e) p =
     if tabCloseButtons p
     then Some (match closeAction p with Some _ => [CloseAction i] | None => [] end)
     else None) /\
  forall ev r c j,
    dispatch ev p = Some r -> c ∈ calls r -> callback_index c = Some j ->
    j = position ev.
Proof.
  intros Hlabel.
  split; [|split; [|split]].
  - intros e. rewrite dispatch_unfold; simpl. rewrite Hlabel.
    rewrite onTabClick_unfold; simpl. rewrite callbacks_propagation.
    destruct (clickAction p); reflexivity.
  - intros e. rewrite dispatch_unfold; simpl. rewrite Hlabel.
    rewrite onTabMiddleClick_unfold; simpl. rewrite callbacks_propagation.
    destruct (closeAction p); reflexivity.
  - intros e. rewrite dispatch_unfold; simpl. rewrite Hlabel.
    destruct (tabCloseButtons p); [|reflexivity].
    rewrite onCloseButton_unfold; simpl. rewrite callbacks_propagation.
    destruct (closeAction p); reflexivity.
  - intros ev r c j. apply (dispatch_calls_index ev p r c j).
Qed.

Lemma tabs_dispatch_by_index_witness :
  (callbacks ∘ calls) <$>
    dispatch (TabClick 2 (Some Samples.left_click)) Samples.three_tabs =
    Some [ClickAction 2] /\
  (callbacks ∘ calls) <$>
    dispatch (TabMiddleClick 2 (Some Samples.middle_click)) Samples.three_tabs =
    Some [CloseAction 2] /\
  (callbacks ∘ calls) <$>
    dispatch (CloseButtonClick 2 (Some Samples.left_click)) Samples.three_tabs =
    Some [CloseAction 2].
Proof.
  destruct (tabs_dispatch_by_index Samples.three_tabs 2 "c.gdd" eq_refl)
    as (Hclick & Hmiddle & Hclose & _).
  split; [apply Hclick|]. split; [apply Hmiddle | apply Hclose].
Defined.

(** C7, counterexample.  The panel renders with an active index that
    points past its only tab; no tab is marked active and the tab still
    answers a click. *)
Lemma stale_index_renders_without_active_tab :
  ~ in_bounds Samples.stale_index /\
  length (render Samples.stale_index) = 1 /\
  active_tabs Samples.stale_index = [] /\
  calls <$> dispatch (TabClick 0 (Some Samples.left_click)) Samples.stale_index =
    Some [StopPropagation; ClickAction 0].
Proof.
  split; [unfold in_bounds; simpl; lia|].
  repeat split.
Qed.

(** C7, as amended.  The panel does not check [tabActiveIndex].  When the
    index is an integer within the bounds of the tab list, exactly the
    tab at that index is marked active; otherwise no tab is.  No handler of the panel
    changes its props, the index and the labels among them. *)
Theorem active_tab_follows_index p :
  active_tabs p =
    (if decide (in_bounds p) then [Z.to_nat (tabActiveIndex p)] else []) /\
  forall ev, from_option final p (dispatch ev p) = p.
Proof.
  split.
  - unfold active_tabs.
    assert (length (render p) = length (tabLabels p)) as Hlen
      by apply length_imap.
    destruct (decide (in_bounds p)) as [Hin|Hout]; unfold in_bounds in *.
    + rewrite (filter_seq_single _ _ (Z.to_nat (tabActiveIndex p))).
      * destruct (decide _); [reflexivity | lia].
      * intros i Hi. rewrite (active_iff p i Hi). lia.
    + rewrite (filter_seq_single _ _ (length (render p))).
      * destruct (decide _); [lia | reflexivity].
      * intros i Hi. rewrite (active_iff p i Hi). lia.
  - intros ev. destruct (dispatch ev p) as [r|] eqn:E; [|reflexivity].
    simpl. eapply dispatch_final, E.
Qed.

(** C10, counterexample.  The panel has no [clickAction] and no
    [closeAction]; a click on its tab, a middle click and a click on the
    close button, each with an event object, call [e.stopPropagation()]:
    the handlers do something. *)
Lemma handlers_without_callbacks_stop_propagation :
  clickAction Samples.no_callbacks = None /\
  closeAction Samples.no_callbacks = None /\
  calls <$> dispatch (TabClick 0 (Some Samples.left_click)) Samples.no_callbacks =
    Some [StopPropagation] /\
  calls <$> dispatch (TabMiddleClick 0 (Some Samples.middle_click)) Samples.no_callbacks =
    Some [StopPropagation] /\
  calls <$> dispatch (CloseButtonClick 0 (Some Samples.left_click)) Samples.no_callbacks =
    Some [StopPropagation].
Proof. repeat split. Qed.

(** C10, as amended.  [clickAction] and [closeAction] are optional.  When
    [clickAction] is undefined the click handler of a tab, and when
    [closeAction] is undefined the middle-click handler and the handler of
    the close button, return without throwing, call no callback and leave
    the props as they are.  They still call [stopPropagation] on the
    event they are given, and do nothing at all when given none. *)
Theorem absent_callbacks_are_skipped p tabIndex e :
  (clickAction p = None ->
     onTabClick tabIndex e p = MkRun p (propagation e) (Ok tt)) /\
  (closeAction p = None ->
     onTabMiddleClick tabIndex e p = MkRun p (propagation e) (Ok tt) /\
     onCloseButton tabIndex e p = MkRun p (propagation e) (Ok tt)) /\
  callbacks (propagation e) = [].
Proof.
  split; [|split].
  - intros H. rewrite onTabClick_unfold, H, app_nil_r. reflexivity.
  - intros H.
    rewrite onTabMiddleClick_unfold, onCloseButton_unfold, H, app_nil_r.
    split; reflexivity.
  - destruct e; reflexivity.
Qed.

Lemma absent_callbacks_are_skipped_witness :
  onTabClick 0 (Some Samples.left_click) Samples.no_callbacks =
    MkRun Samples.no_callbacks [StopPropagation] (Ok tt) /\
  onTabMiddleClick 0 (Some Samples.left_click) Samples.no_callbacks =
    MkRun Samples.no_callbacks [StopPropagation] (Ok tt) /\
  onCloseButton 0 (Some Samples.left_click) Samples.no_callbacks =
    MkRun Samples.no_callbacks [StopPropagation] (Ok tt).
Proof.
  destruct (absent_callbacks_are_skipped Samples.no_callbacks 0
              (Some Samples.left_click)) as (Hclick & Hclose & _).
  split; [apply Hclick; reflexivity | apply Hclose; reflexivity].
Defined.

End PanelFacts.

(** ** Errors thrown by the handlers *)

Module ErrorFacts.

Import MenuBarInput.

(** C3, counterexample.  A click on "File" before its function ref has
    run throws; the message starts with "The", which the message of the
    specification lacks. *)
Lemma missing_ref_message_starts_with_The :
  ref Samples.file_entry = None /\
  outcome (onClick Samples.file_entry (Some Samples.file_div)
             (mount Samples.root Samples.editor32)) =
    Throw "The menu bar floating menu has no associated ref" /\
  outcome (onClick Samples.file_entry (Some Samples.file_div)
             (mount Samples.root Samples.editor32)) ≠
    Throw "menu bar floating menu has no associated ref".
Proof.
  split; [reflexivity|]. split; [reflexivity|].
  intros H. discriminate H.
Qed.

(** C3, as amended.  [onClick] throws exactly when the [ref] of the
    clicked entry is undefined, and then with the message
    "The menu bar floating menu has no associated ref"; when it throws,
    the component, and with it the open state of every entry, is as it
    was before the call.  No other handler throws an error of its own:
    [blur], the function ref and [visitWebsite] always return, and a
    handler of the panel ends as the callback it calls ends, or returns
    when the callback is not given. *)
Theorem missing_ref_is_the_only_error
    this menuEntry t e index r url (p : Panel.Props) tabIndex ev :
  outcome (onClick menuEntry t this) =
    match ref menuEntry with
    | Some _ => Ok tt
    | None => Throw "The menu bar floating menu has no associated ref"
    end /\
  (ref menuEntry = None -> final (onClick menuEntry t this) = this) /\
  outcome (blur e menuEntry this) = Ok tt /\
  outcome (setRef index r this) = Ok tt /\
  outcome (visitWebsite url this) = Ok tt /\
  outcome (Panel.onTabClick tabIndex ev p) =
    match Panel.clickAction p with Some f => f tabIndex | None => Ok tt end /\
  outcome (Panel.onTabMiddleClick tabIndex ev p) =
    match Panel.closeAction p with Some f => f tabIndex | None => Ok tt end /\
  outcome (Panel.onCloseButton tabIndex ev p) =
    match Panel.closeAction p with Some f => f tabIndex | None => Ok tt end.
Proof.
  rewrite MenuBarFacts.onClick_unfold, MenuBarFacts.blur_unfold,
    MenuBarFacts.setRef_unfold, PanelFacts.onTabClick_unfold,
    PanelFacts.onTabMiddleClick_unfold, PanelFacts.onCloseButton_unfold.
  simpl. repeat split.
  intros ->. reflexivity.
Qed.

Lemma missing_ref_is_the_only_error_witness :
  outcome (onClick Samples.file_entry (Some Samples.file_div)
             (mount Samples.root Samples.editor32)) =
    Throw "The menu bar floating menu has no associated ref" /\
  final (onClick Samples.file_entry (Some Samples.file_div)
           (mount Samples.root Samples.editor32)) =
    mount Samples.root Samples.editor32.
Proof.
  destruct (missing_ref_is_the_only_error
              (mount Samples.root Samples.editor32) Samples.file_entry
              (Some Samples.file_div) Samples.blur_outside 0 None
              "https://graphite.rs" Samples.no_callbacks 0 None)
    as (Hthrow & Hsame & _).
  split; [exact Hthrow | apply Hsame; reflexivity].
Defined.

End ErrorFacts.

(** ** How the handlers of the menu bar compose *)

Module MenuBarDynamics.

Import MenuBarInput MenuBarViews MenuBarFacts.

(** One step is one write. *)
Lemma step_effect this ev : step this ev = apply_change (effect ev this) this.
Proof.
  unfold step, dispatch, effect. destruct ev as [i t|i e|i present|].
  - destruct (entries this !! i) as [entry|]; [|reflexivity].
    rewrite onClick_unfold; simpl. destruct (ref entry); reflexivity.
  - destruct (entries this !! i) as [entry|]; [|reflexivity].
    rewrite blur_unfold; simpl.
    destruct (ref entry); [|reflexivity]. destruct (bool_decide _); reflexivity.
  - destruct (entries this !! i) as [entry|]; [|reflexivity].
    destruct (menuLists this !! i); [|reflexivity].
    rewrite setRef_unfold; simpl. destruct present; reflexivity.
  - reflexivity.
Qed.

(** In a state the component can be in, the write goes to the entry
    container the event belongs to. *)
Lemma effect_index root ed this ev :
  wf root ed this ->
  effect ev this = Keep \/ change_index (effect ev this) = event_index ev.
Proof.
  intros Hwf. unfold effect. destruct ev as [i t|i e|i present|]; simpl.
  - destruct (entries this !! i) as [entry|] eqn:E; [|auto].
    destruct (wf_ref _ _ _ Hwf _ _ E) as [-> | ->]; auto.
  - destruct (entries this !! i) as [entry|] eqn:E; [|auto].
    destruct (wf_ref _ _ _ Hwf _ _ E) as [-> | ->]; [auto|].
    destruct (bool_decide _); auto.
  - destruct (entries this !! i), (menuLists this !! i), present; auto.
  - auto.
Qed.

(** A write to another entry container does not change what the
    handler of an event does. *)
Lemma effect_stable c ev this i j :
  change_index c = Some j -> event_index ev = Some i -> i ≠ j ->
  effect ev (apply_change c this) = effect ev this.
Proof.
  intros Hc Hev Hne.
  destruct c as [|r b|k]; simpl in Hc; [discriminate| |];
    injection Hc as ->;
    destruct ev as [i' t|i' e|i' present|]; simpl in Hev;
    try discriminate; injection Hev as ->; unfold effect; simpl;
    rewrite ?list_lookup_alter_ne by congruence; reflexivity.
Qed.

Lemma apply_change_comm c1 c2 this i j :
  change_index c1 = Some i -> change_index c2 = Some j -> i ≠ j ->
  apply_change c2 (apply_change c1 this) = apply_change c1 (apply_change c2 this).
Proof.
  intros H1 H2 Hne.
  destruct c1 as [|r1 b1|k1]; simpl in H1; [discriminate| |];
    injection H1 as ->;
    (destruct c2 as [|r2 b2|k2]; simpl in H2; [discriminate| |]);
    injection H2 as ->; unfold apply_change, with_menuLists, with_entries; simpl;
    try reflexivity; f_equal; apply list_alter_alter_ne; congruence.
Qed.

Lemma click_keeps_open root ed this i t j :
  wf root ed this ->
  open_at this j = true -> open_at (step this (Click i t)) j = true.
Proof.
  intros Hwf Hopen. unfold step, dispatch.
  destruct (entries this !! i) as [entry|] eqn:Hentry; [|assumption].
  rewrite onClick_unfold; simpl.
  destruct (ref entry) as [r|] eqn:Href; [|assumption].
  destruct (wf_ref _ _ _ Hwf _ _ Hentry) as [?|Hr]; [congruence|].
  assert (r = i) as -> by congruence.
  destruct (open_at_set_isOpen _ _ _ _ _ true Hwf Hentry Href) as [Hidx Hother].
  destruct (decide (j = i)) as [->|Hne]; [assumption|].
  rewrite (Hother j Hne). assumption.
Qed.

Lemma ref_keeps_open root ed this i present j :
  wf root ed this ->
  open_at this j = true -> open_at (step this (Ref i present)) j = true.
Proof.
  intros Hwf. unfold step, dispatch.
  destruct (entries this !! i) as [entry|] eqn:Hentry; [|auto].
  destruct (menuLists this !! i) as [m|] eqn:Hm; [|auto].
  rewrite setRef_unfold; simpl.
  destruct present; [|auto].
  unfold open_at, entry_isOpen; simpl.
  destruct (decide (j = i)) as [->|Hne].
  - rewrite list_lookup_alter_eq, Hentry; simpl.
    destruct (wf_ref _ _ _ Hwf _ _ Hentry) as [-> | ->]; [discriminate|auto].
  - rewrite list_lookup_alter_ne by congruence. auto.
Qed.

(** An entry that has its ref keeps it. *)
Lemma has_ref_step this ev i : has_ref this i -> has_ref (step this ev) i.
Proof.
  intros (entry & Hentry & Href). rewrite step_effect.
  destruct (effect ev this) as [|r b|k]; simpl.
  - exists entry. auto.
  - exists entry. auto.
  - unfold has_ref; simpl. destruct (decide (i = k)) as [->|Hne].
    + rewrite list_lookup_alter_eq, Hentry. simpl. eauto.
    + rewrite list_lookup_alter_ne by congruence. eauto.
Qed.

Lemma has_ref_run evs this i : has_ref this i -> has_ref (run_events evs this) i.
Proof.
  revert this. induction evs as [|ev evs IH]; intros this H; simpl; [assumption|].
  apply IH, has_ref_step, H.
Qed.

Lemma run_events_app evs1 evs2 this :
  run_events (evs1 ++ evs2) this = run_events evs2 (run_events evs1 this).
Proof. apply fold_left_app. Qed.

Lemma with_menuLists_same this : with_menuLists this (menuLists this) = this.
Proof. destruct this; reflexivity. Qed.

(** *** What opens and what closes an entry *)

(** X1.  In a state the component can be in, an entry that is closed
    is shown open after an event only if the event is a click on that
    entry. *)
Theorem only_a_click_opens root ed this ev j :
  reachable root ed this ->
  open_at this j = false ->
  open_at (step this ev) j = true ->
  exists t, ev = Click j t.
Proof.
  intros Hreach Hclosed Hopen. apply wf_reachable in Hreach as Hwf.
  destruct ev as [i t|i e|i present|].
  - apply (open_at_click root ed) in Hopen as [-> | Hopen]; [eauto | congruence | assumption].
  - apply (open_at_blur root ed) in Hopen; [congruence | assumption].
  - apply (open_at_ref root ed) in Hopen; [congruence | assumption].
  - unfold step in Hopen; simpl in Hopen. congruence.
Qed.

Lemma only_a_click_opens_witness :
  exists t, Click 0 (Some Samples.file_div) = Click 0 t.
Proof.
  apply (only_a_click_opens Samples.root Samples.editor32 Samples.refs_ready
           (Click 0 (Some Samples.file_div)) 0).
  - apply reachable_run. constructor.
  - reflexivity.
  - reflexivity.
Defined.

(** X2.  In a state the component can be in, an entry that is shown
    open is closed after an event only if the event is a blur on that
    entry whose target lies outside the menu bar.  In particular no click,
    on this or on another entry, closes it. *)
Theorem only_an_outside_blur_closes root ed this ev j :
  reachable root ed this ->
  open_at this j = true ->
  open_at (step this ev) j = false ->
  exists e, ev = Blur j e /\ outside this e.
Proof.
  intros Hreach Hopen Hclosed. apply wf_reachable in Hreach as Hwf.
  destruct ev as [i t|i e|i present|].
  - rewrite (click_keeps_open root ed) in Hclosed by assumption. discriminate.
  - destruct (decide (outside this e)) as [Hout|Hin].
    + destruct (decide (i = j)) as [->|Hne]; [eauto|].
      exfalso. revert Hclosed. unfold step, dispatch.
      destruct (entries this !! i) as [entry|] eqn:Hentry; [|congruence].
      rewrite blur_unfold; simpl.
      destruct (ref entry) as [r|] eqn:Href; [|congruence].
      destruct (bool_decide _); [|congruence].
      destruct (wf_ref _ _ _ Hwf _ _ Hentry) as [?|Hr]; [congruence|].
      assert (r = i) as -> by congruence.
      destruct (open_at_set_isOpen _ _ _ _ _ false Hwf Hentry Href) as [_ Hother].
      rewrite (Hother j) by congruence. congruence.
    + exfalso. revert Hclosed. unfold step, dispatch.
      destruct (entries this !! i) as [entry|]; [|congruence].
      rewrite blur_unfold; simpl. unfold outside in Hin.
      rewrite bool_decide_eq_false_2 by assumption.
      destruct (ref entry); congruence.
  - rewrite (ref_keeps_open root ed) in Hclosed by assumption. discriminate.
  - unfold step in Hclosed; simpl in Hclosed. congruence.
Qed.

Lemma only_an_outside_blur_closes_witness :
  exists e, Blur 0 Samples.blur_outside = Blur 0 e /\ outside Samples.both_open e.
Proof.
  apply (only_an_outside_blur_closes Samples.root Samples.editor32
           Samples.both_open (Blur 0 Samples.blur_outside) 0).
  - apply reachable_run. constructor.
  - reflexivity.
  - reflexivity.
Defined.

(** X3.  A blur whose target lies inside the menu bar is ignored: the
    handler returns, calls nothing and leaves the component as it is,
    also when the blurred entry is open. *)
Theorem blur_inside_is_ignored this i e :
  closest_menu_bar_input (target e) = Some (el this) ->
  step this (Blur i e) = this /\
  forall entry, blur e entry this = MkRun this [] (Ok tt).
Proof.
  intros Hin.
  assert (forall entry, blur e entry this = MkRun this [] (Ok tt)) as Hblur.
  { intros entry. rewrite blur_unfold.
    rewrite bool_decide_eq_false_2 by (intros H; apply H, Hin).
    destruct (ref entry); reflexivity. }
  split; [|assumption].
  unfold step, dispatch. destruct (entries this !! i); [|reflexivity].
  rewrite Hblur. reflexivity.
Qed.

Lemma blur_inside_is_ignored_witness :
  step Samples.both_open (Blur 0 Samples.blur_inside) = Samples.both_open /\
  forall entry,
    blur Samples.blur_inside entry Samples.both_open =
    MkRun Samples.both_open [] (Ok tt).
Proof.
  apply (blur_inside_is_ignored Samples.both_open 0 Samples.blur_inside).
  reflexivity.
Defined.

(** X4.  Clicking an entry twice leaves the component as clicking it
    once does: [onClick] opens, it does not toggle. *)
Theorem click_is_idempotent this i t t' :
  step (step this (Click i t)) (Click i t') = step this (Click i t).
Proof.
  rewrite !step_effect. unfold effect.
  destruct (entries this !! i) as [entry|] eqn:Hentry; simpl; [|rewrite Hentry; reflexivity].
  destruct (ref entry) as [r|] eqn:Href; simpl; rewrite Hentry, Href; [|reflexivity].
  unfold with_menuLists; simpl. f_equal.
  rewrite list_alter_alter_eq. reflexivity.
Qed.

(** X5.  Click, then blur from outside: when the entry was closed
    before, the two handlers together leave the component exactly as it
    was (also when the click throws for want of a ref). *)
Theorem click_then_outside_blur_restores this i t e :
  open_at this i = false ->
  outside this e ->
  step (step this (Click i t)) (Blur i e) = this.
Proof.
  intros Hclosed Hout. rewrite !step_effect. unfold effect.
  unfold outside in Hout. unfold open_at, entry_isOpen in Hclosed.
  destruct this as [root ed es op ms]; simpl in *.
  destruct (es !! i) as [entry|] eqn:Hentry; simpl; [|rewrite Hentry; reflexivity].
  destruct (ref entry) as [r|] eqn:Href; simpl; rewrite Hentry, Href;
    [|reflexivity].
  rewrite bool_decide_eq_true_2 by exact Hout.
  simpl. unfold with_menuLists; simpl. f_equal.
  rewrite list_alter_alter_eq.
  apply list_eq. intros k. destruct (decide (k = r)) as [->|Hne].
  - rewrite list_lookup_alter_eq.
    destruct (ms !! r) as [[b]|]; [|reflexivity].
    simpl in Hclosed. subst b. reflexivity.
  - rewrite list_lookup_alter_ne by congruence. reflexivity.
Qed.

Lemma click_then_outside_blur_restores_witness :
  step (step Samples.refs_ready (Click 0 (Some Samples.file_div)))
       (Blur 0 Samples.blur_outside) = Samples.refs_ready.
Proof.
  apply (click_then_outside_blur_restores Samples.refs_ready 0
           (Some Samples.file_div) Samples.blur_outside).
  - reflexivity.
  - discriminate.
Defined.

(** *** The function ref and the error of [onClick] *)

Lemma length_entries_run root ed evs :
  length (entries (run_events evs (mount root ed))) = length (makeEntries ed).
Proof. apply (Forall2_length _ _ _ (wf_static _ _ _ (wf_run root ed evs))). Qed.

(** X6.  Once the function ref of an entry has been called with the
    entry's [MenuList], a click on that entry returns without throwing
    and shows the entry open, whatever happened before and whatever
    happened in between: a ref that is set is never taken back. *)
Theorem click_succeeds_once_ref_is_set root ed evs evs' i t :
  i < length (makeEntries ed) ->
  let this := run_events (evs ++ Ref i true :: evs') (mount root ed) in
  outcome <$> dispatch (Click i t) this = Some (Ok tt) /\
  open_at (step this (Click i t)) i = true.
Proof.
  intros Hi this.
  assert (has_ref this i) as (entry & Hentry & Href).
  { unfold this. rewrite run_events_app. simpl. apply has_ref_run.
    pose proof (wf_run root ed evs) as Hwf.
    set (before := run_events evs (mount root ed)) in *.
    assert (i < length (entries before)) as Hlen
      by (unfold before; rewrite length_entries_run; exact Hi).
    destruct (lookup_lt_is_Some_2 _ _ Hlen) as [entry Hentry].
    rewrite <- (wf_children _ _ _ Hwf) in Hlen.
    destruct (lookup_lt_is_Some_2 _ _ Hlen) as [m Hm].
    unfold step, dispatch. rewrite Hentry, Hm, setRef_unfold.
    cbn [final]. unfold has_ref, with_entries. cbn [entries].
    exists (with_ref entry (Some i)). split; [|reflexivity].
    rewrite list_lookup_alter_eq, Hentry. reflexivity. }
  pose proof (wf_run root ed (evs ++ Ref i true :: evs')) as Hwf. fold this in Hwf.
  split.
  - unfold dispatch. rewrite Hentry. simpl. rewrite onClick_unfold, Href. reflexivity.
  - unfold step, dispatch. rewrite Hentry, onClick_unfold, Href. simpl.
    apply (open_at_set_isOpen _ _ _ _ _ true Hwf Hentry Href).
Qed.

Lemma click_succeeds_once_ref_is_set_witness :
  outcome <$>
    dispatch (Click 1 None)
      (run_events ([Click 1 None] ++ Ref 1 true :: [Ref 1 false; LogoClick])
         (mount Samples.root Samples.editor32)) = Some (Ok tt) /\
  open_at
    (step
       (run_events ([Click 1 None] ++ Ref 1 true :: [Ref 1 false; LogoClick])
          (mount Samples.root Samples.editor32))
       (Click 1 None)) 1 = true.
Proof.
  apply (click_succeeds_once_ref_is_set Samples.root Samples.editor32
           [Click 1 None] [Ref 1 false; LogoClick] 1 None).
  simpl. lia.
Defined.

(** X7.  As long as no function ref has been called with a [MenuList],
    no event changes the component: it stays as mounted, every entry
    closed, and every click on an entry throws the error of [onClick]. *)
Theorem nothing_opens_before_the_refs root ed evs i t :
  forallb (fun ev => negb (sets_ref ev)) evs = true ->
  i < length (makeEntries ed) ->
  run_events evs (mount root ed) = mount root ed /\
  outcome <$> dispatch (Click i t) (run_events evs (mount root ed)) =
    Some (Throw "The menu bar floating menu has no associated ref").
Proof.
  intros Hevs Hi.
  assert (forall entry, entry ∈ entries (mount root ed) -> ref entry = None) as Hnone.
  { intros entry. apply (proj1 (Forall_forall _ _) (makeEntries_no_ref ed)). }
  assert (forall j entry, entries (mount root ed) !! j = Some entry -> ref entry = None)
    as Hlookup.
  { intros j entry H. apply Hnone. eapply list_elem_of_lookup_2, H. }
  assert (run_events evs (mount root ed) = mount root ed) as Hsame.
  { induction evs as [|ev evs IH]; [reflexivity|].
    simpl in Hevs. apply andb_true_iff in Hevs as [Hev Hrest].
    simpl. replace (step (mount root ed) ev) with (mount root ed); [auto|].
    rewrite step_effect. unfold effect.
    destruct ev as [j t'|j e|j [|]|]; try discriminate Hev; try reflexivity.
    - destruct (entries (mount root ed) !! j) as [entry|] eqn:E; [|reflexivity].
      rewrite (Hlookup _ _ E). reflexivity.
    - destruct (entries (mount root ed) !! j) as [entry|] eqn:E; [|reflexivity].
      rewrite (Hlookup _ _ E). reflexivity.
    - destruct (entries (mount root ed) !! j), (menuLists (mount root ed) !! j);
        reflexivity. }
  split; [exact Hsame|]. rewrite Hsame. unfold dispatch.
  destruct (lookup_lt_is_Some_2 (entries (mount root ed)) i Hi) as [entry Hentry].
  rewrite Hentry. simpl. rewrite onClick_unfold, (Hlookup _ _ Hentry). reflexivity.
Qed.

Lemma nothing_opens_before_the_refs_witness :
  run_events
    [Click 0 (Some Samples.file_div); Blur 0 Samples.blur_outside; Ref 2 false;
     LogoClick; Click 5 None]
    (mount Samples.root Samples.editor32) = mount Samples.root Samples.editor32 /\
  outcome <$>
    dispatch (Click 3 None)
      (run_events
         [Click 0 (Some Samples.file_div); Blur 0 Samples.blur_outside; Ref 2 false;
          LogoClick; Click 5 None]
         (mount Samples.root Samples.editor32)) =
    Some (Throw "The menu bar floating menu has no associated ref").
Proof.
  apply (nothing_opens_before_the_refs Samples.root Samples.editor32).
  - reflexivity.
  - simpl. lia.
Defined.

(** *** Entries are independent *)

(** X8.  In a state the component can be in, two events that belong to
    different entry containers commute: the component is the same
    whichever handler runs first.  What is done to one entry has no
    influence on what a handler does to another. *)
Theorem events_of_different_entries_commute root ed this ev1 ev2 i j :
  reachable root ed this ->
  event_index ev1 = Some i ->
  event_index ev2 = Some j ->
  i ≠ j ->
  step (step this ev1) ev2 = step (step this ev2) ev1.
Proof.
  intros Hreach H1 H2 Hne. apply wf_reachable in Hreach as Hwf.
  rewrite !step_effect.
  destruct (effect_index root ed this ev1 Hwf) as [K1|I1];
    destruct (effect_index root ed this ev2 Hwf) as [K2|I2].
  - rewrite K1, K2. simpl. rewrite K1, K2. reflexivity.
  - rewrite K1. simpl. rewrite H2 in I2.
    rewrite (effect_stable _ ev1 this i j I2 H1 Hne), K1. reflexivity.
  - rewrite K2. simpl. rewrite H1 in I1.
    rewrite (effect_stable _ ev2 this j i I1 H2) by congruence.
    rewrite K2. reflexivity.
  - rewrite H1 in I1. rewrite H2 in I2.
    rewrite (effect_stable _ ev2 this j i I1 H2) by congruence.
    rewrite (effect_stable _ ev1 this i j I2 H1 Hne).
    apply (apply_change_comm _ _ this i j I1 I2 Hne).
Qed.

Lemma events_of_different_entries_commute_witness :
  step (step Samples.refs_ready (Click 0 (Some Samples.file_div)))
       (Click 1 (Some Samples.edit_div)) =
  step (step Samples.refs_ready (Click 1 (Some Samples.edit_div)))
       (Click 0 (Some Samples.file_div)).
Proof.
  apply (events_of_different_entries_commute Samples.root Samples.editor32
           Samples.refs_ready _ _ 0 1).
  - apply reachable_run. constructor.
  - reflexivity.
  - reflexivity.
  - lia.
Defined.

End MenuBarDynamics.

(** ** More about the handlers of the tab strip *)

Module PanelDynamics.

Import Panel PanelViews PanelFacts.

(** What a gesture on an existing tab runs, whole. *)
Lemma dispatch_run ev p r :
  dispatch ev p = Some r ->
  r = MkRun p
        (propagation (mouse_event ev) ++
         match callback_prop ev p with Some _ => [callback_call ev] | None => [] end)
        match callback_prop ev p with Some f => f (position ev) | None => Ok tt end.
Proof.
  rewrite dispatch_unfold. destruct (tabLabels p !! position ev); [|discriminate].
  destruct ev as [i e|i e|i e]; simpl.
  - intros [= <-]. apply onTabClick_unfold.
  - intros [= <-]. apply onTabMiddleClick_unfold.
  - destruct (tabCloseButtons p); [|discriminate].
    intros [= <-]. apply onCloseButton_unfold.
Qed.



(** X10.  When a handler of the strip throws, the error is the one the
    parent's callback threw, with its message; the handler had stopped
    the propagation of the event before it called the callback, called
    it once with the position of the tab, and the props are unchanged. *)
Theorem callback_error_propagates p ev r msg :
  dispatch ev p = Some r ->
  outcome r = Throw msg ->
  exists f,
    callback_prop ev p = Some f /\
    f (position ev) = Throw msg /\
    calls r = propagation (mouse_event ev) ++ [callback_call ev] /\
    final r = p.
Proof.
  intros H. apply dispatch_run in H as ->. simpl.
  destruct (callback_prop ev p) as [f|]; [|discriminate].
  intros Hthrow. exists f. auto.
Qed.

Lemma callback_error_propagates_witness :
  exists f,
    callback_prop (CloseButtonClick 1 (Some Samples.left_click)) refusing_parent
      = Some f /\
    f 1 = Throw "cannot close" /\
    calls (onCloseButton 1 (Some Samples.left_click) refusing_parent) =
      [StopPropagation] ++ [CloseAction 1] /\
    final (onCloseButton 1 (Some Samples.left_click) refusing_parent) =
      refusing_parent.
Proof.
  apply (callback_error_propagates refusing_parent
           (CloseButtonClick 1 (Some Samples.left_click))
           (onCloseButton 1 (Some Samples.left_click) refusing_parent)
           "cannot close").
  - reflexivity.
  - reflexivity.
Defined.


End PanelDynamics.

(** ** The static menu table *)

Module TableFacts.

Import MenuBarInput MenuBarViews.

(** X12.  No two entries of the table, at whatever depth, carry the
    same keyboard shortcut. *)
Theorem shortcuts_are_distinct ed :
  NoDup (omap shortcut (all_entries (makeEntries ed))).
Proof. refine (bool_decide_unpack _ _). vm_compute. exact I. Qed.

(** X13.  Labels identify entries among their siblings: the labels of
    the top-level entries are pairwise different, and so are the labels
    of the items below any one entry, all its sections taken together.
    A path of labels therefore names at most one entry. *)
Theorem sibling_labels_are_distinct ed :
  NoDup (label <$> makeEntries ed) /\
  Forall (fun entry => NoDup (label <$> submenu entry))
         (all_entries (makeEntries ed)).
Proof.
  split.
  - refine (bool_decide_unpack _ _). vm_compute. exact I.
  - repeat (constructor; [refine (bool_decide_unpack _ _); vm_compute; exact I|]).
    constructor.
Qed.

(** X14.  An entry that opens a submenu calls nothing: the top-level
    entries have no action, and every item below them that has children
    carries an action whose invocation has no effect on the editor or
    the window (so that the default action is not taken for it). *)
Theorem submenu_parents_call_nothing ed :
  Forall (fun top => action top = None /\ is_Some (children top)) (makeEntries ed) /\
  Forall (fun entry =>
            is_Some (children entry) ->
            exists a, action entry = Some a /\ invoke a = [])
         (nested_entries (makeEntries ed)).
Proof.
  split.
  - repeat (constructor; [split; [reflexivity | eexists; reflexivity]|]).
    constructor.
  - repeat (constructor;
            [first [ intros [? H]; discriminate H
                   | intros _; eexists; split; reflexivity ]|]).
    constructor.
Qed.

End TableFacts.
